(** * Solar Energy Tracker: week window, weekly statistics, chart average
      and the entry store

    A shallow embedding of the logic of
    [src/components/weekly-summary.tsx] (the [WeeklySummary] component and
    the [SolarTracker] component that follows it in the same file), of
    [src/components/solar-chart.tsx] and of
    [src/components/theme-toggle.tsx].

    Conventions of the embedding.
    - A JavaScript [Date] is a time value, in milliseconds since the epoch,
      or Invalid Date; its local time comes from the time zone, which is a
      parameter (module [JSDate]).  date-fns' [startOfWeek], [addDays],
      [format "yyyy-MM-dd"] and [isValid] are written out on it from
      ECMAScript's [getDay], [setDate], [setHours] and [TimeClip], and
      [InZone.getCurrentWeekEntries] is the week window over them.
    - Inside the range of time values and in a week during which the
      zone's offset does not change, a [Date] acts through its local
      calendar day only (lemma [week_regular]).  Module [DateFns] has
      date-fns on that day, a day number [Z] counted from 1970-01-01; the
      store, the form and the state of the component are stated on it.
    - A JavaScript [number] holding a production value is a rational [Q]:
      every finite double is one.  [>], [===] and [Math.max] are exact on
      it.  Sums, products and quotients are rounded as binary64 rounds them,
      to nearest, ties to even, with overflow to an infinity (module
      [Float64]).  [SolarChart.average] alone is also given unrounded, for
      the sign of the reference line.
    - [crypto.randomUUID()] is an effect: the k-th call of a run returns
      [uuid k], and computations thread the number of calls made so far.
    - Of the toasts only the [Undo] action is kept; messages, animations and
      the loading flags are presentation and are left out. *)

From Stdlib Require Import ZArith QArith Qround List String Ascii Bool Lia Arith.
From Stdlib Require Import DecimalString.
From Stdlib Require Import Permutation Lqa.
Import ListNotations.

Local Open Scope Z_scope.

(* ================================================================== *)
(** ** date-fns on calendar days *)

(** What date-fns does to a [Date] seen through its local calendar day.
    The functions of module [JSDate] below, on time values in a time zone,
    come down to these in a regular week (lemmas [startOfWeek_regular] and
    [weekDate_regular]). *)
Module DateFns.

(** The local calendar day of a [Date], as a number of days since
    1970-01-01. *)
Definition Day := Z.

(** [Date.prototype.getDay]: 0 is Sunday; 1970-01-01 was a Thursday. *)
Definition getDay (date : Day) : Z := (date + 4) mod 7.

(** [startOfWeek(date)] with the default [weekStartsOn = 0]:
    [diff = (day < weekStartsOn ? 7 : 0) + day - weekStartsOn], then
    [setDate(getDate() - diff)]. *)
Definition startOfWeek (date : Day) : Day :=
  let weekStartsOn := 0 in
  let day := getDay date in
  let diff := (if day <? weekStartsOn then 7 else 0) + day - weekStartsOn in
  date - diff.

(** [addDays(date, amount)]: [setDate(getDate() + amount)]. *)
Definition addDays (date : Day) (amount : Z) : Day := date + amount.

(** A civil (proleptic Gregorian) date; [month] is 1..12. *)
Record Civil := mkCivil { year : Z; month : Z; dayOfMonth : Z }.

(** The calendar date of the [doe]-th day of a 400-year era that starts on
    March 1st of its year 0; [0 <= doe < 146097]. *)
Definition civilInEra (doe : Z) : Civil :=
  let yoe := (doe - doe / 1460 + doe / 36524 - doe / 146096) / 365 in
  let doy := doe - (365 * yoe + yoe / 4 - yoe / 100) in
  let mp := (5 * doy + 2) / 153 in
  let d := doy - (153 * mp + 2) / 5 + 1 in
  let m := if mp <? 10 then mp + 3 else mp - 9 in
  mkCivil (if m <=? 2 then yoe + 1 else yoe) m d.

(** The calendar date of a day number ([getFullYear], [getMonth() + 1],
    [getDate]); day 0 is 1970-01-01, the 719468-th day of era 0. *)
Definition civil (date : Day) : Civil :=
  let z := date + 719468 in
  let era := z / 146097 in
  let c := civilInEra (z mod 146097) in
  mkCivil (year c + 400 * era) (month c) (dayOfMonth c).

(** [String.prototype.padStart(targetLength, "0")]. *)
Fixpoint zeros (n : nat) : string :=
  match n with
  | O => EmptyString
  | S n' => String "0" (zeros n')
  end.

Definition padStart (s : string) (targetLength : nat) : string :=
  (zeros (targetLength - String.length s) ++ s)%string.

(** [Math.abs(number).toString()] on an integer. *)
Definition toString (n : Z) : string :=
  NilZero.string_of_uint (N.to_uint (Z.abs_N n)).

(** date-fns' [addLeadingZeros(number, targetLength)]. *)
Definition addLeadingZeros (number : Z) (targetLength : nat) : string :=
  let sign := if number <? 0 then "-"%string else EmptyString in
  (sign ++ padStart (toString number) targetLength)%string.

(** [format(date, "yyyy-MM-dd")]: the [yyyy] token prints
    [signedYear > 0 ? signedYear : 1 - signedYear]. *)
Definition format (date : Day) : string :=
  let c := civil date in
  let signedYear := year c in
  let y := if 0 <? signedYear then signedYear else 1 - signedYear in
  (addLeadingZeros y 4 ++ "-" ++ addLeadingZeros (month c) 2
     ++ "-" ++ addLeadingZeros (dayOfMonth c) 2)%string.




End DateFns.

(* ================================================================== *)
(** ** JavaScript values and array methods used by the components *)

Module JS.

(** The result of [Math.max]: a production value or [-Infinity]. *)
Inductive number := NegInfinity | Num (q : Q).

(** [x > y] on production values. *)
Definition Qgtb (x y : Q) : bool := negb (Qle_bool x y).

(** One step of [Math.max]: the running highest value is replaced only by
    a strictly greater one. *)
Definition maxStep (highest : number) (value : Q) : number :=
  match highest with
  | NegInfinity => Num value
  | Num h => if Qgtb value h then Num value else Num h
  end.

(** [Math.max(...values)], starting from [-Infinity]. *)
Definition Math_max (values : list Q) : number :=
  fold_left maxStep values NegInfinity.

(** [value === m] where [m] comes from [Math.max]. *)
Definition strictEq (value : Q) (m : number) : bool :=
  match m with
  | NegInfinity => false
  | Num q => Qeq_bool value q
  end.

(** [m > 0]. *)
Definition gt0 (m : number) : bool :=
  match m with
  | NegInfinity => false
  | Num q => Qgtb q 0
  end.

(** Truthiness of a string: only the empty string is falsy. *)
Definition truthy (s : string) : bool := negb (String.eqb s EmptyString).

(** [Array.prototype.findIndex]; [None] stands for [-1]. *)
Fixpoint findIndex {A : Type} (p : A -> bool) (l : list A) : option nat :=
  match l with
  | [] => None
  | x :: l' => if p x then Some O else option_map S (findIndex p l')
  end.

(** [copy[i] = f(copy[i])] on a fresh copy of the array.  The index
    always comes from [findIndex] and is in range. *)
Fixpoint updateAt {A : Type} (i : nat) (f : A -> A) (l : list A) : list A :=
  match l, i with
  | [], _ => []
  | x :: l', O => f x :: l'
  | x :: l', S i' => x :: updateAt i' f l'
  end.

End JS.

(* ================================================================== *)
(** ** Double-precision arithmetic *)

Module Float64.

(** The result of an arithmetic operation on doubles.  A finite double is
    the rational it stands for; the two zeros are one value, which the
    code cannot tell apart: it divides only by array lengths and by a
    maximum already found to be above 0. *)
Inductive t := NaN | NegInfinity | Finite (q : Q) | Infinity.

(** The number of quanta in 1: the least positive double is [2^-1074]. *)
Definition scale : Q := inject_Z (2 ^ 1074).

(** The nearest integer, ties to even. *)
Definition rne (x : Q) : Z :=
  let f := Qfloor x in
  match (x - inject_Z f ?= 1 # 2)%Q with
  | Lt => f
  | Eq => if Z.even f then f else f + 1
  | Gt => f + 1
  end.

(** The exponent of the unit in the last place of a value of [n] quanta:
    53 significant bits are kept, and nothing below one quantum. *)
Definition ulpExp (n : Q) : Z := Z.max 0 (Z.log2 (Qfloor n) - 52).

(** The significand of the double nearest to [n] quanta. *)
Definition significand (n : Q) : Z := rne (n / inject_Z (2 ^ ulpExp n)).

(** Rounding a positive rational to binary64: to nearest, ties to even;
    [2^1024], which is [2^2098] quanta, and above overflow. *)
Definition roundPos (q : Q) : t :=
  let n := (q * scale)%Q in
  let v := significand n * 2 ^ ulpExp n in
  if v <? 2 ^ 2098 then Finite (Qred (inject_Z v / scale)) else Infinity.

Definition neg (x : t) : t :=
  match x with
  | NaN => NaN
  | NegInfinity => Infinity
  | Finite q => Finite (- q)
  | Infinity => NegInfinity
  end.

(** The double nearest to a rational. *)
Definition round (q : Q) : t :=
  match (q ?= 0)%Q with
  | Eq => Finite 0
  | Gt => roundPos q
  | Lt => neg (roundPos (- q))
  end.

(** [x + y]. *)
Definition add (x y : t) : t :=
  match x, y with
  | NaN, _ | _, NaN => NaN
  | Infinity, NegInfinity | NegInfinity, Infinity => NaN
  | Infinity, _ | _, Infinity => Infinity
  | NegInfinity, _ | _, NegInfinity => NegInfinity
  | Finite a, Finite b => round (a + b)
  end.

(** The infinity of the sign of [a], [NaN] for 0. *)
Definition signed (a : Q) (positive : t) : t :=
  match (a ?= 0)%Q with
  | Eq => NaN
  | Gt => positive
  | Lt => neg positive
  end.


(** [x / y]; a zero divisor is [+0]. *)
Definition div (x y : t) : t :=
  match x, y with
  | NaN, _ | _, NaN => NaN
  | Finite a, Finite b =>
      match (b ?= 0)%Q with
      | Eq => signed a Infinity
      | _ => round (a / b)
      end
  | Finite _, Infinity | Finite _, NegInfinity => Finite 0
  | Infinity, Finite b => if Qle_bool 0 b then Infinity else NegInfinity
  | NegInfinity, Finite b => if Qle_bool 0 b then NegInfinity else Infinity
  | Infinity, Infinity | Infinity, NegInfinity
  | NegInfinity, Infinity | NegInfinity, NegInfinity => NaN
  end.

(** The length of an array, as a number. *)
Definition ofNat (n : nat) : t := Finite (inject_Z (Z.of_nat n)).

(** [x <= y]; false when either is [NaN]. *)
Definition le (x y : t) : Prop :=
  match x, y with
  | NaN, _ | _, NaN => False
  | NegInfinity, _ => True
  | _, Infinity => True
  | Finite a, Finite b => (a <= b)%Q
  | _, _ => False
  end.

(** [x > y]. *)
Definition gtb (x y : t) : bool :=
  match x, y with
  | NaN, _ | _, NaN => false
  | NegInfinity, _ => false
  | _, Infinity => false
  | Finite a, Finite b => negb (Qle_bool a b)
  | _, _ => true
  end.

(** [Math.max(x, y)]. *)
Definition max (x y : t) : t :=
  match x, y with
  | NaN, _ | _, NaN => NaN
  | _, _ => if gtb y x then y else x
  end.

End Float64.

(* ================================================================== *)
(** ** Effects: the UUID source and exceptions *)

Module Eff.

Inductive outcome (A : Type) := Returned (a : A) | Thrown.
Arguments Returned {A} a.
Arguments Thrown {A}.

(** A computation reads and advances the number of
    [crypto.randomUUID()] calls made so far, and returns or throws. *)
Definition t (A : Type) := nat -> outcome A * nat.

Definition ret {A : Type} (a : A) : t A := fun calls => (Returned a, calls).

Definition throw {A : Type} : t A := fun calls => (Thrown, calls).

Definition bind {A B : Type} (c : t A) (k : A -> t B) : t B :=
  fun calls =>
    match c calls with
    | (Returned a, calls') => k a calls'
    | (Thrown, calls') => (Thrown, calls')
    end.

(** [try { body } catch (error) { handler }]. *)
Definition tryCatch {A : Type} (body handler : t A) : t A :=
  fun calls =>
    match body calls with
    | (Returned a, calls') => (Returned a, calls')
    | (Thrown, calls') => handler calls'
    end.

(** [Array.prototype.map] with an effectful callback, left to right; a
    callback that throws aborts the whole call. *)
Fixpoint Array_map {A B : Type} (f : A -> t B) (l : list A) : t (list B) :=
  match l with
  | [] => ret []
  | x :: l' =>
      bind (f x) (fun y => bind (Array_map f l') (fun ys => ret (y :: ys)))
  end.

(** The list a computation returned, [[]] if it threw. *)
Definition listOf {A : Type} (r : outcome (list A) * nat) : list A :=
  match r with
  | (Returned l, _) => l
  | (Thrown, _) => []
  end.

End Eff.

Notation "x <- c ;; k" := (Eff.bind c (fun x => k))
  (at level 61, c at next level, right associativity).

(* ================================================================== *)
(** ** [Date] objects in a time zone *)

Module JSDate.

Definition msPerDay : Z := 86400000.

(** The largest time value: 100,000,000 days from the epoch. *)
Definition maxTime : Z := 8640000000000000.

(** A [Date]: its time value, in milliseconds since 1970-01-01T00:00:00Z,
    or Invalid Date, whose time value is [NaN]. *)
Inductive Date := InvalidDate | TimeValue (tv : Z).

(** ECMAScript's [TimeClip]. *)
Definition TimeClip (time : Z) : Date :=
  if Z.abs time <=? maxTime then TimeValue time else InvalidDate.

Definition Day (t : Z) : Z := t / msPerDay.

Definition TimeWithinDay (t : Z) : Z := t mod msPerDay.

Definition MakeDate (day time : Z) : Z := day * msPerDay + time.

(** A time zone: the offset of local time at a time value,
    [LocalTZA(t, true)], and the offset by which a local time is
    understood, [LocalTZA(t, false)]; across a change of offset the two
    differ, and a local time that the change skips is understood with the
    offset before it. *)
Record TimeZone := mkZone { offsetAt : Z -> Z; offsetOfLocal : Z -> Z }.

Section Zone.

Variable zone : TimeZone.

Definition LocalTime (t : Z) : Z := t + offsetAt zone t.

Definition UTC (t : Z) : Z := t - offsetOfLocal zone t.

(** [date.getDay()]: 0 is Sunday, and 1970-01-01 was a Thursday; [None]
    stands for [NaN]. *)
Definition getDay (date : Date) : option Z :=
  match date with
  | InvalidDate => None
  | TimeValue tv => Some ((Day (LocalTime tv) + 4) mod 7)
  end.

(** [date.setDate(date.getDate() + amount)]: the day of the local time is
    moved by [amount], its time within the day is kept, and the result is
    read back as a local time. *)
Definition moveDate (date : Date) (amount : Z) : Date :=
  match date with
  | InvalidDate => InvalidDate
  | TimeValue tv =>
      let t := LocalTime tv in
      TimeClip (UTC (MakeDate (Day t + amount) (TimeWithinDay t)))
  end.

(** [date.setHours(0, 0, 0, 0)]. *)
Definition setHours0 (date : Date) : Date :=
  match date with
  | InvalidDate => InvalidDate
  | TimeValue tv =>
      let t := LocalTime tv in
      TimeClip (UTC (MakeDate (Day t) 0))
  end.


(** date-fns' [startOfWeek(date)] with the default [weekStartsOn = 0]:
    [diff = (day < weekStartsOn ? 7 : 0) + day - weekStartsOn], then
    [setDate(getDate() - diff)] and [setHours(0, 0, 0, 0)]. *)
Definition startOfWeek (date : Date) : Date :=
  let weekStartsOn := 0 in
  match getDay date with
  | None => InvalidDate
  | Some day =>
      let diff := (if day <? weekStartsOn then 7 else 0) + day - weekStartsOn in
      setHours0 (moveDate date (- diff))
  end.

(** date-fns' [addDays(date, amount)]: the date itself when [amount] is 0,
    [setDate(getDate() + amount)] otherwise. *)
Definition addDays (date : Date) (amount : Z) : Date :=
  if amount =? 0 then date else moveDate date amount.

(** date-fns' [format(date, "yyyy-MM-dd")]: a [RangeError] for Invalid
    Date, the local calendar date otherwise. *)
Definition format (date : Date) : Eff.outcome string :=
  match date with
  | InvalidDate => Eff.Thrown
  | TimeValue tv => Eff.Returned (DateFns.format (Day (LocalTime tv)))
  end.

End Zone.

(** The zone keeps the offset [z] for the time values and the local times
    from [lo] to [hi]. *)
Definition steady (zone : TimeZone) (z lo hi : Z) : Prop :=
  forall x, lo <= x <= hi -> offsetAt zone x = z /\ offsetOfLocal zone x = z.

(** The local calendar day of a time value, at offset [z]. *)
Definition localDay (z tv : Z) : DateFns.Day := Day (tv + z).

(** A regular week for the anchor [t]: the zone keeps an offset [z] of
    less than a day from 8 days before [t] to 8 days after it, the Sunday
    and the Saturday of the week of [t] are within the range of time
    values, and so is [t]. *)
Definition regularWeek (zone : TimeZone) (z t : Z) : Prop :=
  - msPerDay < z < msPerDay /\
  steady zone z (t - 8 * msPerDay) (t + 8 * msPerDay) /\
  - maxTime <= DateFns.startOfWeek (localDay z t) * msPerDay - z /\
  (DateFns.startOfWeek (localDay z t) + 6) * msPerDay - z <= maxTime /\
  t <= maxTime.

End JSDate.

(* ================================================================== *)
(** ** The data model *)

(** [interface SolarEntry { date: string; production: number; id: string }] *)
Record SolarEntry := mkEntry { date : string; production : Q; id : string }.

(** An element of the persisted array as [JSON.parse] returns it: the
    [id] may be missing. *)
Record StoredEntry :=
  mkStored { stored_date : string; stored_production : Q;
             stored_id : option string }.

(** What [JSON.parse] can return, as far as the loader distinguishes:
    an array, whose elements are objects of the persisted layout or [null],
    or a value that is not an array (it has no [map] method). *)
Inductive JSONElement := JSONNull | JSONObject (entry : StoredEntry).
Inductive JSONValue := JSONArray (elements : list JSONElement) | JSONOther.

(* ================================================================== *)
(** ** [SolarTracker] (weekly-summary.tsx, second component) *)

(** What [calculateWeeklyStats] returns. *)
Record WeeklyStats :=
  mkStats { weeklyTotal : Float64.t; dailyAverage : Float64.t;
            maxProduction : JS.number; maxProductionDay : option SolarEntry }.

Section Tracker.

(** [uuid k] is the value of the k-th [crypto.randomUUID()] call. *)
Variable uuid : nat -> string.

(** [JSON.parse]: a value, or [Thrown] for a [SyntaxError]. *)
Variable JSON_parse : string -> Eff.outcome JSONValue.

Definition randomUUID : Eff.t string :=
  fun calls => (Eff.Returned (uuid calls), S calls).

(** The callback of the loader:
    [(entry) => ({ ...entry, id: entry.id || crypto.randomUUID() })].
    Reading [entry.id] of [null] throws a [TypeError]. *)
Definition withId (entry : JSONElement) : Eff.t SolarEntry :=
  match entry with
  | JSONNull => Eff.throw
  | JSONObject e =>
      match stored_id e with
      | Some i =>
          if JS.truthy i
          then Eff.ret (mkEntry (stored_date e) (stored_production e) i)
          else i' <- randomUUID ;;
               Eff.ret (mkEntry (stored_date e) (stored_production e) i')
      | None =>
          i' <- randomUUID ;;
          Eff.ret (mkEntry (stored_date e) (stored_production e) i')
      end
  end.

(** The mount effect that loads the entries.  [savedEntries] is what
    [localStorage.getItem("solarEntries")] returned ([None] for [null]) and
    [entries] the current state, [[]] at mount; the result is the state
    afterwards.  [setEntries] is reached only when nothing threw. *)
Definition load (savedEntries : option string) (entries : list SolarEntry)
  : Eff.t (list SolarEntry) :=
  Eff.tryCatch
    (match savedEntries with
     | Some s =>
         if JS.truthy s
         then parsedEntries <- (fun calls => (JSON_parse s, calls)) ;;
              match parsedEntries with
              | JSONArray elements =>
                  entriesWithIds <- Eff.Array_map withId elements ;;
                  Eff.ret entriesWithIds
              | JSONOther => Eff.throw
              end
         else Eff.ret entries
     | None => Eff.ret entries
     end)
    (Eff.ret entries).

(** [onSubmit]: [selectedDate] is the [date] state ([None] for
    [undefined]), [productionValue] the validated form value; the result
    is the new [entries]. *)
Definition onSubmit (selectedDate : option DateFns.Day) (productionValue : Q)
    (entries : list SolarEntry) : Eff.t (list SolarEntry) :=
  match selectedDate with
  | None => Eff.ret entries
  | Some day =>
      Eff.tryCatch
        (let formattedDate := DateFns.format day in
         let existingEntryIndex :=
           JS.findIndex (fun entry => String.eqb entry.(date) formattedDate)
                        entries in
         match existingEntryIndex with
         | Some i =>
             Eff.ret
               (JS.updateAt i
                  (fun old => mkEntry old.(date) productionValue old.(id))
                  entries)
         | None =>
             newId <- randomUUID ;;
             let newEntry := mkEntry formattedDate productionValue newId in
             Eff.ret (entries ++ [newEntry])
         end)
        (Eff.ret entries)
  end.

(** [confirmDelete]: the new [entries]. *)
Definition confirmDelete (entryToDelete : option SolarEntry)
    (entries : list SolarEntry) : list SolarEntry :=
  match entryToDelete with
  | None => entries
  | Some toDelete =>
      filter (fun e => negb (String.eqb e.(id) toDelete.(id))) entries
  end.

(** The [Undo] action of the toast: [(prev) => [...prev, deletedEntry]]. *)
Definition undo (deletedEntry : SolarEntry) (prev : list SolarEntry)
  : list SolarEntry :=
  prev ++ [deletedEntry].

(** [Array.from({ length: n }, (_, i) => f(i))]. *)
Definition Array_from {A : Type} (n : nat) (f : Z -> A) : list A :=
  map (fun i => f (Z.of_nat i)) (seq 0 n).

(** The callback of [weekDates.map] in [getCurrentWeekEntries]:
    [entry?.id || crypto.randomUUID()] draws a UUID when no entry was found
    or its [id] is falsy. *)
Definition weekEntry (entries : list SolarEntry) (weekDate : string)
  : Eff.t SolarEntry :=
  let entry := find (fun e => String.eqb e.(date) weekDate) entries in
  newId <- match entry with
           | Some e => if JS.truthy e.(id) then Eff.ret e.(id) else randomUUID
           | None => randomUUID
           end ;;
  Eff.ret
    (mkEntry weekDate
       (match entry with
        | Some e => e.(production)
        | None => 0%Q
        end)
       newId).

(** [getCurrentWeekEntries] on the local calendar day of the selected
    date; [selectedDate] is the [date] state.  It is what
    [InZone.getCurrentWeekEntries] below computes in a regular week (lemma
    [week_regular]); there [format] does not throw. *)
Definition getCurrentWeekEntries (selectedDate : option DateFns.Day)
    (entries : list SolarEntry) : Eff.t (list SolarEntry) :=
  match selectedDate with
  | None => Eff.ret []
  | Some day =>
      Eff.tryCatch
        (let weekStart := DateFns.startOfWeek day in
         let weekDates :=
           Array_from 7
             (fun i => DateFns.format (DateFns.addDays weekStart i)) in
         Eff.Array_map (weekEntry entries) weekDates)
        (Eff.ret [])
  end.

(** [calculateWeeklyStats]; nothing in its [try] block can throw, so the
    [catch] branch is not represented. *)
Definition calculateWeeklyStats (weeklyEntries : list SolarEntry)
  : WeeklyStats :=
  let weeklyTotal :=
    fold_left
      (fun sum entry => Float64.add sum (Float64.Finite entry.(production)))
      weeklyEntries (Float64.Finite 0) in
  let daysWithProduction :=
    List.length
      (filter (fun entry => JS.Qgtb entry.(production) 0) weeklyEntries) in
  let dailyAverage :=
    if (0 <? daysWithProduction)%nat
    then Float64.div weeklyTotal (Float64.ofNat daysWithProduction)
    else Float64.Finite 0 in
  let maxProduction :=
    JS.Math_max (map (fun entry => entry.(production)) weeklyEntries) in
  let maxProductionDay :=
    find (fun entry => JS.strictEq entry.(production) maxProduction)
         weeklyEntries in
  mkStats weeklyTotal dailyAverage maxProduction maxProductionDay.

(** The BEST DAY card: [maxProduction > 0 && maxProductionDay ? ... :
    "No data"]; the day it shows, if any. *)
Definition bestDay (stats : WeeklyStats) : option SolarEntry :=
  if JS.gt0 stats.(maxProduction)
  then stats.(maxProductionDay)
  else None.

End Tracker.

(* ================================================================== *)
(** ** The week window on [Date] objects *)

Module InZone.

Section Component.

Variable zone : JSDate.TimeZone.
Variable uuid : nat -> string.

(** [getCurrentWeekEntries] as it runs in a time zone; [selectedDate] is
    the [date] state, a [Date] object or [undefined].  [format] throws on
    an Invalid Date, which the [catch] turns into [[]]. *)
Definition getCurrentWeekEntries (selectedDate : option JSDate.Date)
    (entries : list SolarEntry) : Eff.t (list SolarEntry) :=
  match selectedDate with
  | None => Eff.ret []
  | Some date =>
      Eff.tryCatch
        (let weekStart := JSDate.startOfWeek zone date in
         weekDates <-
           Eff.Array_map
             (fun i calls =>
                (JSDate.format zone (JSDate.addDays zone weekStart i), calls))
             (Array_from 7 (fun i => i)) ;;
         Eff.Array_map (weekEntry uuid entries) weekDates)
        (Eff.ret [])
  end.

End Component.

End InZone.

(* ================================================================== *)
(** ** [WeeklySummary] (weekly-summary.tsx, first component) *)

Module WeeklySummary.

(** The four values the component computes from its [entries] prop. *)
Definition summary (entries : list SolarEntry) : WeeklyStats :=
  let weeklyTotal :=
    fold_left
      (fun sum entry => Float64.add sum (Float64.Finite entry.(production)))
      entries (Float64.Finite 0) in
  let daysWithProduction :=
    List.length
      (filter (fun entry => JS.Qgtb entry.(production) 0) entries) in
  let dailyAverage :=
    if (0 <? daysWithProduction)%nat
    then Float64.div weeklyTotal (Float64.ofNat daysWithProduction)
    else Float64.Finite 0 in
  let maxProduction :=
    JS.Math_max (map (fun entry => entry.(production)) entries) in
  let maxProductionDay :=
    find (fun entry => JS.strictEq entry.(production) maxProduction)
         entries in
  mkStats weeklyTotal dailyAverage maxProduction maxProductionDay.

(** BEST DAY: the day named under the value, shown only when
    [maxProduction > 0 && maxProductionDay]. *)
Definition bestDay (entries : list SolarEntry) : option SolarEntry :=
  let s := summary entries in
  if JS.gt0 s.(maxProduction) then s.(maxProductionDay) else None.

End WeeklySummary.

(* ================================================================== *)
(** ** [SolarChart] (solar-chart.tsx) *)

Module SolarChart.

(** A point of [chartData], without the formatted weekday label. *)
Definition chartData (entries : list SolarEntry) : list (string * Q) :=
  map (fun entry => (entry.(date), entry.(production))) entries.


(** The value of the reference line, with the sum and the quotient
    unrounded. *)
Definition average (entries : list SolarEntry) : Q :=
  let productionValues := map (fun entry => entry.(production)) entries in
  let nonZeroValues :=
    filter (fun value => JS.Qgtb value 0) productionValues in
  if (0 <? List.length nonZeroValues)%nat
  then (fold_left (fun sum value => (sum + value)%Q) nonZeroValues 0%Q
        / inject_Z (Z.of_nat (List.length nonZeroValues)))%Q
  else 0%Q.


End SolarChart.

(* ================================================================== *)
(** ** The component state and the user's actions *)

Module State.

(** The [useState] cells of [SolarTracker] that the store depends on,
    the week rendered last, the [Undo] actions still on screen (each
    holds its [deletedEntry]) and the count of UUID calls.  The selected
    date is held as its local calendar day. *)
Record t :=
  mk { date : option DateFns.Day;
       entries : list SolarEntry;
       entryToDelete : option SolarEntry;
       showDeleteDialog : bool;
       undoToasts : list SolarEntry;
       weeklyEntries : list SolarEntry;
       calls : nat }.

End State.

Section Machine.

Variable uuid : nat -> string.
Variable JSON_parse : string -> Eff.outcome JSONValue.

(** A render recomputes [weeklyEntries]. *)
Definition render (st : State.t) : State.t :=
  match getCurrentWeekEntries uuid (State.date st) (State.entries st)
                              (State.calls st) with
  | (Eff.Returned week, calls') =>
      State.mk (State.date st) (State.entries st) (State.entryToDelete st)
               (State.showDeleteDialog st) (State.undoToasts st) week calls'
  | (Eff.Thrown, calls') =>
      State.mk (State.date st) (State.entries st) (State.entryToDelete st)
               (State.showDeleteDialog st) (State.undoToasts st) [] calls'
  end.

(** The state after mounting: [date] is [new Date()], [entries] is [[]],
    then the load effect runs. *)
Definition mount (today : DateFns.Day) (savedEntries : option string)
  : State.t :=
  match load uuid JSON_parse savedEntries [] O with
  | (Eff.Returned entries', calls') =>
      render (State.mk (Some today) entries' None false [] [] calls')
  | (Eff.Thrown, calls') =>
      render (State.mk (Some today) [] None false [] [] calls')
  end.

(** [handleDateChange]: an [undefined] or invalid date is refused. *)
Definition handleDateChange (newDate : option DateFns.Day) (st : State.t)
  : State.t :=
  match newDate with
  | None => st
  | Some d =>
      State.mk (Some d) (State.entries st) (State.entryToDelete st)
               (State.showDeleteDialog st) (State.undoToasts st)
               (State.weeklyEntries st) (State.calls st)
  end.

(** The form's submit handler on the state. *)
Definition submit (productionValue : Q) (st : State.t) : State.t :=
  match onSubmit uuid (State.date st) productionValue (State.entries st)
                 (State.calls st) with
  | (Eff.Returned entries', calls') =>
      State.mk (State.date st) entries' (State.entryToDelete st)
               (State.showDeleteDialog st) (State.undoToasts st)
               (State.weeklyEntries st) calls'
  | (Eff.Thrown, calls') =>
      State.mk (State.date st) (State.entries st) (State.entryToDelete st)
               (State.showDeleteDialog st) (State.undoToasts st)
               (State.weeklyEntries st) calls'
  end.

(** [handleDeleteEntry]. *)
Definition handleDeleteEntry (entry : SolarEntry) (st : State.t) : State.t :=
  State.mk (State.date st) (State.entries st) (Some entry) true
           (State.undoToasts st) (State.weeklyEntries st) (State.calls st).

(** The dialog's Cancel button: [setShowDeleteDialog(false)]. *)
Definition cancelDelete (st : State.t) : State.t :=
  State.mk (State.date st) (State.entries st) (State.entryToDelete st) false
           (State.undoToasts st) (State.weeklyEntries st) (State.calls st).

(** [confirmDelete] on the state: the filtered entries, an [Undo] toast
    for the deleted entry, and the [finally] block. *)
Definition confirm (st : State.t) : State.t :=
  match State.entryToDelete st with
  | None => st
  | Some deletedEntry =>
      State.mk (State.date st)
               (confirmDelete (Some deletedEntry) (State.entries st))
               None false
               (State.undoToasts st ++ [deletedEntry])
               (State.weeklyEntries st) (State.calls st)
  end.

(** Removing the [i]-th toast. *)
Definition dropToast (i : nat) (toasts : list SolarEntry) : list SolarEntry :=
  firstn i toasts ++ skipn (S i) toasts.

(** Clicking [Undo] on the [i]-th toast, which then closes. *)
Definition clickUndo (i : nat) (st : State.t) : State.t :=
  match nth_error (State.undoToasts st) i with
  | None => st
  | Some deletedEntry =>
      State.mk (State.date st) (undo deletedEntry (State.entries st))
               (State.entryToDelete st) (State.showDeleteDialog st)
               (dropToast i (State.undoToasts st))
               (State.weeklyEntries st) (State.calls st)
  end.

(** The [i]-th toast expires. *)
Definition dismissToast (i : nat) (st : State.t) : State.t :=
  State.mk (State.date st) (State.entries st) (State.entryToDelete st)
           (State.showDeleteDialog st) (dropToast i (State.undoToasts st))
           (State.weeklyEntries st) (State.calls st).

(** The user's actions. *)
Inductive Action :=
| DateChange (newDate : option DateFns.Day)
| Submit (productionValue : Q)
| HandleDelete (entry : SolarEntry)
| Cancel
| Confirm
| Undo (i : nat)
| Dismiss (i : nat).

Definition perform (a : Action) (st : State.t) : State.t :=
  match a with
  | DateChange newDate => handleDateChange newDate st
  | Submit productionValue => submit productionValue st
  | HandleDelete entry => handleDeleteEntry entry st
  | Cancel => cancelDelete st
  | Confirm => confirm st
  | Undo i => clickUndo i st
  | Dismiss i => dismissToast i st
  end.

(** When the interface offers an action.  The form schema admits
    [0 <= production <= 100]; the delete button exists for a rendered day
    with [production > 0]; the dialog's Delete button exists while the
    dialog is open; [Undo] exists on a toast still on screen. *)
Definition enabled (a : Action) (st : State.t) : Prop :=
  match a with
  | Submit productionValue =>
      (0 <= productionValue)%Q /\ (productionValue <= 100)%Q
  | HandleDelete entry =>
      In entry (State.weeklyEntries st) /\
      JS.Qgtb entry.(production) 0 = true
  | Confirm => State.showDeleteDialog st = true
  | Undo i => (i < List.length (State.undoToasts st))%nat
  | DateChange _ | Cancel | Dismiss _ => True
  end.

(** The states the component is in after mounting on saved data admitted
    by [okSaved] and any number of enabled actions admitted by [okAction],
    each followed by the render it causes. *)
Inductive reachableWhen (okSaved : option string -> Prop)
    (okAction : Action -> State.t -> Prop) : State.t -> Prop :=
| when_mount today savedEntries :
    okSaved savedEntries ->
    reachableWhen okSaved okAction (mount today savedEntries)
| when_step a st :
    reachableWhen okSaved okAction st -> enabled a st -> okAction a st ->
    reachableWhen okSaved okAction (render (perform a st)).

(** The states the component can be in. *)
Definition reachable : State.t -> Prop :=
  reachableWhen (fun _ => True) (fun _ _ => True).

(** A sequence of actions, each followed by its render. *)
Fixpoint run (actions : list Action) (st : State.t) : State.t :=
  match actions with
  | [] => st
  | a :: actions' => run actions' (render (perform a st))
  end.

Fixpoint allEnabled (actions : list Action) (st : State.t) : Prop :=
  match actions with
  | [] => True
  | a :: actions' =>
      enabled a st /\ allEnabled actions' (render (perform a st))
  end.

(** An [Undo] is guarded when no entry with the deleted entry's date is in
    the collection at that moment. *)
Definition guarded (a : Action) (st : State.t) : Prop :=
  match a with
  | Undo i =>
      forall deletedEntry,
        nth_error (State.undoToasts st) i = Some deletedEntry ->
        ~ In deletedEntry.(date) (map date (State.entries st))
  | _ => True
  end.

(** The dates of the objects of a parsed array. *)
Fixpoint storedDates (elements : list JSONElement) : list string :=
  match elements with
  | [] => []
  | JSONNull :: elements' => storedDates elements'
  | JSONObject e :: elements' => stored_date e :: storedDates elements'
  end.

(** The persisted data holds at most one entry per date. *)
Definition storedDistinct (savedEntries : option string) : Prop :=
  forall s elements,
    savedEntries = Some s -> JSON_parse s = Eff.Returned (JSONArray elements) ->
    NoDup (storedDates elements).

(** The states reached from such data through guarded actions. *)
Definition reachableGuarded : State.t -> Prop :=
  reachableWhen storedDistinct guarded.




End Machine.

(* ================================================================== *)
(** ** The specification's formulas, written from its words *)

Module Spec.

(** "sum of production over all 7 days". *)
Fixpoint total (week : list SolarEntry) : Q :=
  match week with
  | [] => 0%Q
  | e :: week' => (e.(production) + total week')%Q
  end.

(** "countOf(days where production > 0)". *)
Fixpoint productiveDays (week : list SolarEntry) : nat :=
  match week with
  | [] => O
  | e :: week' =>
      if Qlt_le_dec 0 e.(production)
      then S (productiveDays week')
      else productiveDays week'
  end.

(** "total / countOf(days where production > 0); defined as 0 when that
    count is 0". *)
Definition dailyAverage (week : list SolarEntry) : Q :=
  match productiveDays week with
  | O => 0%Q
  | S n => (total week / inject_Z (Z.of_nat (S n)))%Q
  end.

(** The collection holds at most one entry per distinct date. *)
Definition distinctDates (entries : list SolarEntry) : Prop :=
  NoDup (map date entries).

(** The number of entries of a collection with a given date. *)
Definition entriesFor (d : string) (entries : list SolarEntry) : nat :=
  List.length (filter (fun e => String.eqb e.(date) d) entries).

(** "the last-encountered match in iteration order". *)
Definition lastEncountered (weekDate : string) (entries : list SolarEntry)
  : option SolarEntry :=
  find (fun s => String.eqb s.(date) weekDate) (rev entries).

End Spec.

(* ================================================================== *)
(** ** Results described by their inputs *)

(** What a day of the window carries, whatever identifier it gets: the
    production of the first stored entry with its date, or 0. *)
Definition carries (entries : list SolarEntry) (weekDate : string)
    (e : SolarEntry) : Prop :=
  e.(date) = weekDate /\
  e.(production) =
    match find (fun s => String.eqb s.(date) weekDate) entries with
    | Some s => s.(production)
    | None => 0%Q
    end.

(** An entry as loaded from an element of the persisted array by a load
    that made the UUID calls number [lo] to [hi - 1]: date and production as
    stored, the stored [id] when it is there and not empty, and the UUID of
    one of those calls otherwise. *)
Definition loadedFrom (uuid : nat -> string) (lo hi : nat)
    (element : JSONElement) (e : SolarEntry) : Prop :=
  match element with
  | JSONNull => False
  | JSONObject stored =>
      e.(date) = stored_date stored /\
      e.(production) = stored_production stored /\
      match stored_id stored with
      | Some i =>
          if String.eqb i EmptyString
          then exists k, (lo <= k < hi)%nat /\ e.(id) = uuid k
          else e.(id) = i
      | None => exists k, (lo <= k < hi)%nat /\ e.(id) = uuid k
      end
  end.

(** Every production of a list is non-negative. *)
Definition nonNegative (entries : list SolarEntry) : Prop :=
  Forall (fun e => (0 <= e.(production))%Q) entries.


(** Every production of a list is a double: rounding gives it back. *)
Definition doubles (entries : list SolarEntry) : Prop :=
  Forall (fun e => exists r, Float64.round e.(production) = Float64.Finite r /\
                             (r == e.(production))%Q)
         entries.

(** Every production of a list is a whole number, not negative. *)
Definition wholeNumbers (entries : list SolarEntry) : Prop :=
  Forall (fun e => exists k, 0 <= k /\ (e.(production) == inject_Z k)%Q)
         entries.

(* ================================================================== *)
(** ** Checking the calendar over one era *)

Module CalendarCheck.
Import DateFns.



End CalendarCheck.

(* ================================================================== *)
(** ** Sample data *)

Module Sample.

(** A UUID source for the examples. *)
Definition uuid (k : nat) : string :=
  ("uuid-" ++ NilZero.string_of_uint (Nat.to_uint k))%string.

(** A saved text and the array it stands for: Monday's entry was saved
    without an identifier. *)
Definition saved : string :=
  "[{date:2024-01-08,production:5},{date:2024-01-10,production:3,id:b}]".

Definition savedElements : list JSONElement :=
  [JSONObject (mkStored "2024-01-08" 5 None);
   JSONObject (mkStored "2024-01-10" 3 (Some "b"%string))].

(** A parser for the examples: it knows two documents. *)
Definition JSON_parse (s : string) : Eff.outcome JSONValue :=
  if String.eqb s saved then Eff.Returned (JSONArray savedElements)
  else if String.eqb s "{}" then Eff.Returned JSONOther
  else Eff.Thrown.

(** Monday 2024-01-08. *)
Definition monday : DateFns.Day := 19730.

(** The week [Sun:0, Mon:5, Tue:0, Wed:3, Thu:0, Fri:0, Sat:0]. *)
Definition monWed : list SolarEntry :=
  [mkEntry "2024-01-08" 5 "a"; mkEntry "2024-01-10" 3 "b"].

(** The week [Mon:5, Thu:5], the other days 0. *)
Definition monThu : list SolarEntry :=
  [mkEntry "2024-01-11" 5 "t"; mkEntry "2024-01-08" 5 "m"].

(** A week window with productions [0, 5, 0, 3, 0, 0, 0]. *)
Definition week0503 : list SolarEntry :=
  [mkEntry "2024-01-07" 0 "s"; mkEntry "2024-01-08" 5 "m";
   mkEntry "2024-01-09" 0 "t"; mkEntry "2024-01-10" 3 "w";
   mkEntry "2024-01-11" 0 "h"; mkEntry "2024-01-12" 0 "f";
   mkEntry "2024-01-13" 0 "a"].

(** An all-zero week window. *)
Definition weekZero : list SolarEntry :=
  [mkEntry "2024-01-07" 0 "s"; mkEntry "2024-01-08" 0 "m";
   mkEntry "2024-01-09" 0 "t"; mkEntry "2024-01-10" 0 "w";
   mkEntry "2024-01-11" 0 "h"; mkEntry "2024-01-12" 0 "f";
   mkEntry "2024-01-13" 0 "a"].

(** Two stored entries for Monday. *)
Definition twoMondays : list SolarEntry :=
  [mkEntry "2024-01-08" 5 "a"; mkEntry "2024-01-08" 3 "b"].

(** The component mounted on that Monday with nothing saved. *)
Definition mounted : State.t := mount uuid JSON_parse monday None.

(** Save 5 for Monday, delete it, save 3 for Monday, then click [Undo]. *)
Definition undoRace : list Action :=
  [Submit 5; HandleDelete (mkEntry "2024-01-08" 5 "uuid-7"); Confirm;
   Submit 3; Undo 0].

(** The same, followed by two more saves for Monday. *)
Definition upsertTwice : list Action := undoRace ++ [Submit 1; Submit 2].

End Sample.

(* ================================================================== *)
(** ** Sample decimal productions *)

Module DecimalSample.

(** The doubles that the numerals [0.1] and [0.2] denote. *)
Definition tenth : Q := 3602879701896397 # 36028797018963968.

Definition twoTenths : Q := 3602879701896397 # 18014398509481984.

(** 0.1 saved for Monday 2024-01-08 and 0.2 for Tuesday. *)
Definition monTue : list SolarEntry :=
  [mkEntry "2024-01-08" tenth "a"; mkEntry "2024-01-09" twoTenths "b"].

End DecimalSample.

(* ================================================================== *)
(** ** Saved data with a negative production *)

Module NegativeSample.

Definition text : string :=
  "[{date:2024-01-07,production:-1,id:x},{date:2024-01-08,production:5,id:a}]".

Definition elements : list JSONElement :=
  [JSONObject (mkStored "2024-01-07" (-1) (Some "x"%string));
   JSONObject (mkStored "2024-01-08" 5 (Some "a"%string))].

(** A parser that knows this document. *)
Definition JSON_parse (s : string) : Eff.outcome JSONValue :=
  if String.eqb s text then Eff.Returned (JSONArray elements)
  else Eff.Thrown.

(** The component mounted on Monday 2024-01-08 with this text saved. *)
Definition mounted : State.t :=
  mount Sample.uuid JSON_parse Sample.monday (Some text).

End NegativeSample.

(* ================================================================== *)
(** ** Sample time zones *)

Module Zones.

Definition utc : JSDate.TimeZone := JSDate.mkZone (fun _ => 0) (fun _ => 0).

Definition hour : Z := 3600000.

(** Pacific/Apia around the end of 2011: ten hours behind UTC until
    2011-12-30T10:00:00Z, the end of 2011-12-29 there, and fourteen hours
    ahead from then on.  Day 15338 is 2011-12-30. *)
Definition apia : JSDate.TimeZone :=
  JSDate.mkZone
    (fun t =>
       if t <? 15338 * JSDate.msPerDay + 10 * hour
       then - 10 * hour else 14 * hour)
    (fun t =>
       if t <? 15339 * JSDate.msPerDay then - 10 * hour else 14 * hour).

End Zones.

(* ================================================================== *)
(** ** The form, the day cards and the theme toggle *)

Module Form.

(** The effect "update form when date changes" and the end of
    [handleDateChange]: with a date selected, the form takes the production
    of [entries.find(entry => entry.date === formattedDate)], or is reset to
    its default, [undefined]; without a date it keeps its value. *)
Definition update (selectedDate : option DateFns.Day)
    (entries : list SolarEntry) (formValue : option Q) : option Q :=
  match selectedDate with
  | None => formValue
  | Some day =>
      let formattedDate := DateFns.format day in
      let existingEntry :=
        find (fun entry => String.eqb entry.(date) formattedDate) entries in
      match existingEntry with
      | Some e => Some e.(production)
      | None => None
      end
  end.

End Form.

Module DayCards.

(** [weeklyEntries.some((entry) => entry.production > 0)]: whether the grid
    of day cards, and the chart, are rendered rather than their
    placeholders. *)
Definition shown (weeklyEntries : list SolarEntry) : bool :=
  existsb (fun entry => JS.Qgtb entry.(production) 0) weeklyEntries.




(** The delete button of a card: [entry.production > 0 && <Button ...>]. *)
Definition deletable (entry : SolarEntry) : bool :=
  JS.Qgtb entry.(production) 0.


End DayCards.

Module ThemeToggle.

(** [handleThemeChange]: the theme it sets; [theme] is [None] while
    next-themes has not resolved it. *)
Definition handleThemeChange (theme : option string) : string :=
  match theme with
  | Some t => if String.eqb t "dark" then "light"%string else "dark"%string
  | None => "dark"%string
  end.

(** The [aria-label] of the button. *)
Definition ariaLabel (theme : option string) : string :=
  match theme with
  | Some t =>
      if String.eqb t "dark" then "Switch to light mode"%string
      else "Switch to dark mode"%string
  | None => "Switch to dark mode"%string
  end.

End ThemeToggle.

(* ================================================================== *)
(** ** Definitions for the further properties *)



(** The production a window shows at position [i], 0 outside it. *)
Definition shownAt (week : list SolarEntry) (i : nat) : Q :=
  match nth_error week i with
  | Some e => e.(production)
  | None => 0%Q
  end.

(** What [JSON.parse] gives back for an entry that [JSON.stringify] wrote:
    its three fields. *)
Definition written (e : SolarEntry) : JSONElement :=
  JSONObject (mkStored e.(date) e.(production) (Some e.(id))).

(** The entries of a state all have a non-empty identifier. *)
Definition idsNonEmpty (entries : list SolarEntry) : Prop :=
  Forall (fun e => e.(id) <> EmptyString) entries.

(** The window of a state's date and entries, as a render computes it. *)
Definition windowOf (uuid : nat -> string) (selectedDate : option DateFns.Day)
    (entries : list SolarEntry) (calls : nat) : list SolarEntry :=
  Eff.listOf (getCurrentWeekEntries uuid selectedDate entries calls).

(** What a day of the window is, identifier included: dated [weekDate];
    with a stored entry for that date, its production and, when that is not
    empty, its identifier; otherwise production 0; and wherever the
    identifier is not a stored one, the UUID of one of the calls number
    [lo] to [hi - 1]. *)
Definition dayOf (uuid : nat -> string) (entries : list SolarEntry)
    (lo hi : nat) (weekDate : string) (e : SolarEntry) : Prop :=
  e.(date) = weekDate /\
  match find (fun s => String.eqb s.(date) weekDate) entries with
  | Some s =>
      e.(production) = s.(production) /\
      if JS.truthy s.(id) then e.(id) = s.(id)
      else exists k, (lo <= k < hi)%nat /\ e.(id) = uuid k
  | None =>
      e.(production) = 0%Q /\ exists k, (lo <= k < hi)%nat /\ e.(id) = uuid k
  end.

(** The production the window shows for a date. *)
Definition productionOn (entries : list SolarEntry) (weekDate : string) : Q :=
  match find (fun s => String.eqb s.(date) weekDate) entries with
  | Some s => s.(production)
  | None => 0%Q
  end.

(** No empty identifier anywhere in the state. *)
Definition stateIdsNonEmpty (st : State.t) : Prop :=
  idsNonEmpty (State.entries st) /\
  idsNonEmpty (State.undoToasts st) /\
  idsNonEmpty (State.weeklyEntries st) /\
  match State.entryToDelete st with
  | Some e => e.(id) <> EmptyString
  | None => True
  end.

(* ================================================================== *)
(** ** A saved collection for the examples *)

Module SavedSample.

(** The text saved for [Sample.monWed]. *)
Definition text : string :=
  "[{date:2024-01-08,production:5,id:a},{date:2024-01-10,production:3,id:b}]".

(** A parser that knows this document. *)
Definition JSON_parse (s : string) : Eff.outcome JSONValue :=
  if String.eqb s text
  then Eff.Returned (JSONArray (map written Sample.monWed))
  else Eff.Thrown.

End SavedSample.

(* ================================================================== *)
(** * Properties *)

(** ** Calendar days *)

Section DateProperties.
Import DateFns CalendarCheck.

Lemma getDay_range (d : Day) : 0 <= getDay d < 7.
Proof. unfold getDay. apply Z.mod_pos_bound. lia. Qed.

Lemma startOfWeek_eq (d : Day) : startOfWeek d = d - getDay d.
Proof.
  unfold startOfWeek. pose proof (getDay_range d) as H.
  destruct (getDay d <? 0) eqn:E; [apply Z.ltb_lt in E|]; lia.
Qed.

Lemma startOfWeek_sunday (d : Day) : getDay (startOfWeek d) = 0.
Proof.
  rewrite startOfWeek_eq. unfold getDay.
  replace (d - (d + 4) mod 7 + 4) with (d + 4 - (d + 4) mod 7) by lia.
  rewrite Zminus_mod_idemp_r. rewrite Z.sub_diag. reflexivity.
Qed.

Lemma startOfWeek_bounds (d : Day) : startOfWeek d <= d < startOfWeek d + 7.
Proof. rewrite startOfWeek_eq. pose proof (getDay_range d). lia. Qed.










Lemma civil_epoch : civil 0 = mkCivil 1970 1 1.
Proof. vm_compute. reflexivity. Qed.
End DateProperties.

(* ================================================================== *)
(** ** Array methods *)

Section ArrayFacts.
Context {A : Type}.

Lemma find_first (p : A -> bool) (l1 : list A) (x : A) (l2 : list A) :
  (forall y, In y l1 -> p y = false) -> p x = true ->
  find p (l1 ++ x :: l2) = Some x.
Proof.
  induction l1 as [|y l1 IH]; intros Hl1 Hx; cbn [app find].
  - rewrite Hx. reflexivity.
  - rewrite (Hl1 y (or_introl eq_refl)). apply IH; [|assumption].
    intros z Hz. apply Hl1. right. assumption.
Qed.

Lemma find_split (p : A -> bool) (l : list A) (x : A) :
  find p l = Some x ->
  exists l1 l2, l = l1 ++ x :: l2 /\ p x = true /\
                (forall y, In y l1 -> p y = false).
Proof.
  induction l as [|y l IH]; cbn [find]; [discriminate|].
  destruct (p y) eqn:Hy.
  - intros [= ->]. exists [], l. repeat split; [assumption|contradiction].
  - intros H. destruct (IH H) as (l1 & l2 & -> & Hx & Hl1).
    exists (y :: l1), l2. repeat split; [assumption|].
    intros z [<-|Hz]; [assumption|apply Hl1; assumption].
Qed.

Lemma findIndex_none (p : A -> bool) (l : list A) :
  JS.findIndex p l = None <-> forall y, In y l -> p y = false.
Proof.
  induction l as [|x l IH]; cbn [JS.findIndex].
  - split; [intros _ y []|reflexivity].
  - destruct (p x) eqn:Hx.
    + split; [discriminate|]. intros H.
      rewrite (H x (or_introl eq_refl)) in Hx. discriminate.
    + destruct (JS.findIndex p l) eqn:E; cbn [option_map].
      * split; [discriminate|]. intros H.
        pose proof (proj2 IH (fun y Hy => H y (or_intror Hy))). discriminate.
      * split; [|reflexivity]. intros _ y [<-|Hy]; [assumption|].
        apply (proj1 IH eq_refl). assumption.
Qed.

Lemma findIndex_first (p : A -> bool) (l1 : list A) (x : A) (l2 : list A) :
  (forall y, In y l1 -> p y = false) -> p x = true ->
  JS.findIndex p (l1 ++ x :: l2) = Some (List.length l1).
Proof.
  induction l1 as [|y l1 IH]; intros Hl1 Hx; cbn [app JS.findIndex List.length].
  - rewrite Hx. reflexivity.
  - rewrite (Hl1 y (or_introl eq_refl)), IH; [reflexivity| |assumption].
    intros z Hz. apply Hl1. right. assumption.
Qed.

Lemma findIndex_split (p : A -> bool) (l : list A) (i : nat) :
  JS.findIndex p l = Some i ->
  exists l1 x l2, l = l1 ++ x :: l2 /\ List.length l1 = i /\ p x = true /\
                  (forall y, In y l1 -> p y = false).
Proof.
  revert i. induction l as [|y l IH]; intros i; cbn [JS.findIndex];
    [discriminate|].
  destruct (p y) eqn:Hy.
  - intros [= <-]. exists [], y, l. repeat split; [assumption|contradiction].
  - destruct (JS.findIndex p l) as [j|] eqn:E; cbn [option_map];
      [|discriminate].
    intros [= <-]. destruct (IH j eq_refl) as (l1 & x & l2 & -> & <- & Hx & Hl1).
    exists (y :: l1), x, l2. repeat split; [assumption|].
    intros z [<-|Hz]; [assumption|apply Hl1; assumption].
Qed.

Lemma updateAt_middle (f : A -> A) (l1 : list A) (x : A) (l2 : list A) :
  JS.updateAt (List.length l1) f (l1 ++ x :: l2) = l1 ++ f x :: l2.
Proof.
  induction l1 as [|y l1 IH]; cbn [app List.length JS.updateAt];
    [reflexivity|]. rewrite IH. reflexivity.
Qed.

End ArrayFacts.

(* ================================================================== *)
(** ** Effects *)

Lemma Array_map_returns {A B : Type} (f : A -> Eff.t B) (R : A -> B -> Prop) :
  (forall x calls, exists y calls',
      f x calls = (Eff.Returned y, calls') /\ R x y) ->
  forall l calls, exists ys calls',
      Eff.Array_map f l calls = (Eff.Returned ys, calls') /\ Forall2 R l ys.
Proof.
  intros Hf. induction l as [|x l IH]; intros calls.
  - exists [], calls. split; [reflexivity|constructor].
  - destruct (Hf x calls) as (y & c1 & Ey & Hy).
    destruct (IH c1) as (ys & c2 & Eys & Hys).
    exists (y :: ys), c2. split; [|constructor; assumption].
    cbn [Eff.Array_map]. unfold Eff.bind at 1. rewrite Ey.
    unfold Eff.bind. rewrite Eys. reflexivity.
Qed.

(* ================================================================== *)
(** ** The week window *)

Section WeekWindow.
Variable uuid : nat -> string.

Lemma weekEntry_returns entries weekDate calls :
  exists e calls',
    weekEntry uuid entries weekDate calls = (Eff.Returned e, calls') /\
    carries entries weekDate e.
Proof.
  unfold weekEntry, carries.
  destruct (find _ entries) as [s|].
  - destruct (JS.truthy (id s)).
    + eexists _, _. split; [reflexivity|]. split; reflexivity.
    + eexists _, _. split; [reflexivity|]. split; reflexivity.
  - eexists _, _. split; [reflexivity|]. split; reflexivity.
Qed.

Lemma week_returns day entries calls :
  exists week calls',
    getCurrentWeekEntries uuid (Some day) entries calls
      = (Eff.Returned week, calls') /\
    Forall2 (carries entries)
      (Array_from 7 (fun i => DateFns.format
                                (DateFns.addDays (DateFns.startOfWeek day) i)))
      week.
Proof.
  destruct (Array_map_returns (weekEntry uuid entries) (carries entries)
              (weekEntry_returns entries)
              (Array_from 7 (fun i => DateFns.format
                 (DateFns.addDays (DateFns.startOfWeek day) i))) calls)
    as (week & calls' & E & H).
  exists week, calls'. split; [|assumption].
  unfold getCurrentWeekEntries, Eff.tryCatch. cbv zeta. rewrite E. reflexivity.
Qed.

End WeekWindow.

Lemma find_absent {A : Type} (p : A -> bool) (l : list A) :
  (forall y, In y l -> p y = false) -> find p l = None.
Proof.
  intros H. destruct (find p l) as [x|] eqn:E; [|reflexivity].
  apply find_some in E as [Hin Hp]. rewrite (H x Hin) in Hp. discriminate.
Qed.

Lemma carries_first entries weekDate e l1 s l2 :
  carries entries weekDate e -> entries = l1 ++ s :: l2 ->
  s.(date) = weekDate -> (forall s', In s' l1 -> s'.(date) <> weekDate) ->
  e.(production) = s.(production).
Proof.
  intros [_ Hp] -> Hs Hl1. rewrite Hp, find_first; [reflexivity| |].
  - intros y Hy. apply String.eqb_neq. apply Hl1. assumption.
  - apply String.eqb_eq. assumption.
Qed.


(** The seven days of a window, taken apart. *)
Lemma week_days (uuid : nat -> string) day entries calls :
  exists e0 e1 e2 e3 e4 e5 e6 calls',
    getCurrentWeekEntries uuid (Some day) entries calls
      = (Eff.Returned [e0; e1; e2; e3; e4; e5; e6], calls') /\
    forall i e, nth_error [e0; e1; e2; e3; e4; e5; e6] i = Some e ->
      carries entries
        (DateFns.format (DateFns.startOfWeek day + Z.of_nat i)) e.
Proof.
  destruct (week_returns uuid day entries calls) as (week & calls' & E & H).
  cbv [Array_from seq map DateFns.addDays] in H.
  repeat match goal with
         | H : Forall2 _ (_ :: _) _ |- _ => inversion H; subst; clear H
         | H : Forall2 _ [] _ |- _ => inversion H; subst; clear H
         end.
  do 7 eexists. exists calls'. split; [exact E|].
  intros i e Hi.
  do 7 (destruct i as [|i]; [injection Hi as <-; assumption|]).
  destruct i; discriminate.
Qed.


(* ================================================================== *)
(** ** The week window in a time zone *)

Ltac dlia := Z.div_mod_to_equations; lia.

Section Steady.
Import JSDate.

Variable zone : TimeZone.
Variables z lo hi : Z.
Hypothesis zone_steady : steady zone z lo hi.

Lemma TimeClip_valid (time : Z) :
  - maxTime <= time <= maxTime -> TimeClip time = TimeValue time.
Proof.
  intros H. unfold TimeClip.
  destruct (Z.leb_spec (Z.abs time) maxTime) as [_|Hgt]; [reflexivity|lia].
Qed.

Lemma getDay_steady (tv : Z) :
  lo <= tv <= hi ->
  getDay zone (TimeValue tv) = Some (DateFns.getDay (Day (tv + z))).
Proof.
  intros H. unfold getDay, LocalTime.
  rewrite (proj1 (zone_steady tv H)). reflexivity.
Qed.

Lemma moveDate_steady (tv amount : Z) :
  lo <= tv <= hi -> lo <= tv + z + amount * msPerDay <= hi ->
  - maxTime <= tv + amount * msPerDay <= maxTime ->
  moveDate zone (TimeValue tv) amount = TimeValue (tv + amount * msPerDay).
Proof.
  intros H1 H2 H3. unfold moveDate, LocalTime. cbv zeta.
  rewrite (proj1 (zone_steady tv H1)).
  assert (E : MakeDate (Day (tv + z) + amount) (TimeWithinDay (tv + z))
              = tv + z + amount * msPerDay).
  { unfold MakeDate, Day, TimeWithinDay, msPerDay. dlia. }
  rewrite E. unfold UTC. rewrite (proj2 (zone_steady _ H2)).
  replace (tv + z + amount * msPerDay - z) with (tv + amount * msPerDay)
    by lia.
  apply TimeClip_valid. exact H3.
Qed.

Lemma setHours0_steady (tv : Z) :
  lo <= tv <= hi -> lo <= Day (tv + z) * msPerDay <= hi ->
  - maxTime <= Day (tv + z) * msPerDay - z <= maxTime ->
  setHours0 zone (TimeValue tv) = TimeValue (Day (tv + z) * msPerDay - z).
Proof.
  intros H1 H2 H3. unfold setHours0, LocalTime. cbv zeta.
  rewrite (proj1 (zone_steady tv H1)).
  unfold MakeDate. rewrite Z.add_0_r. unfold UTC.
  rewrite (proj2 (zone_steady _ H2)).
  apply TimeClip_valid. exact H3.
Qed.

Lemma format_steady (tv : Z) :
  lo <= tv <= hi ->
  format zone (TimeValue tv)
  = Eff.Returned (DateFns.format (Day (tv + z))).
Proof.
  intros H. unfold format, LocalTime.
  rewrite (proj1 (zone_steady tv H)). reflexivity.
Qed.

End Steady.

Section RegularWeek.
Import JSDate.

Variable zone : TimeZone.
Variables z t : Z.
Hypothesis regular : regularWeek zone z t.

Lemma startOfWeek_regular :
  startOfWeek zone (TimeValue t)
  = TimeValue (DateFns.startOfWeek (localDay z t) * msPerDay - z).
Proof.
  destruct regular as (Hz & Hst & Hlo & Hhi & Ht). unfold localDay in *.
  pose proof (getDay_range (Day (t + z))) as Hr.
  pose proof (startOfWeek_eq (Day (t + z))) as Hs.
  unfold startOfWeek. cbv zeta.
  rewrite (getDay_steady zone z _ _ Hst) by (unfold msPerDay; lia).
  destruct (Z.ltb_spec (DateFns.getDay (Day (t + z))) 0) as [Hneg|_];
    [lia|].
  set (diff := 0 + DateFns.getDay (Day (t + z)) - 0).
  assert (Hd : diff = DateFns.getDay (Day (t + z))) by (subst diff; lia).
  assert (Hday : Day (t + z) * msPerDay <= t + z
                 < Day (t + z) * msPerDay + msPerDay)
    by (unfold Day, msPerDay; dlia).
  unfold msPerDay, maxTime in *.
  rewrite (moveDate_steady zone z _ _ Hst)
    by (unfold msPerDay, maxTime; lia).
  assert (E : Day (t + - diff * 86400000 + z)
              = DateFns.startOfWeek (Day (t + z))).
  { rewrite Hs, <- Hd. unfold Day, msPerDay. dlia. }
  rewrite (setHours0_steady zone z _ _ Hst);
    unfold msPerDay, maxTime; rewrite ?E; try lia.
  reflexivity.
Qed.

Lemma weekDate_regular (i : Z) :
  0 <= i <= 6 ->
  format zone
    (addDays zone
       (TimeValue (DateFns.startOfWeek (localDay z t) * msPerDay - z)) i)
  = Eff.Returned
      (DateFns.format
         (DateFns.addDays (DateFns.startOfWeek (localDay z t)) i)).
Proof.
  intros Hi.
  destruct regular as (Hz & Hst & Hlo & Hhi & Ht). unfold localDay in *.
  pose proof (getDay_range (Day (t + z))) as Hr.
  pose proof (startOfWeek_eq (Day (t + z))) as Hs.
  assert (Hday : Day (t + z) * msPerDay <= t + z
                 < Day (t + z) * msPerDay + msPerDay)
    by (unfold Day, msPerDay; dlia).
  set (s := DateFns.startOfWeek (Day (t + z))) in *.
  unfold msPerDay, maxTime in *.
  unfold addDays, DateFns.addDays.
  destruct (Z.eqb_spec i 0) as [->|Hne].
  - rewrite (format_steady zone z _ _ Hst) by (unfold msPerDay; lia).
    do 2 f_equal. unfold Day, msPerDay. dlia.
  - rewrite (moveDate_steady zone z _ _ Hst)
      by (unfold msPerDay, maxTime; lia).
    rewrite (format_steady zone z _ _ Hst) by (unfold msPerDay; lia).
    do 2 f_equal. unfold Day, msPerDay. dlia.
Qed.

(** In a regular week the window of a [Date] is the window of its local
    calendar day. *)
Lemma week_regular (uuid : nat -> string) (entries : list SolarEntry)
    (calls : nat) :
  InZone.getCurrentWeekEntries zone uuid (Some (TimeValue t)) entries calls
  = getCurrentWeekEntries uuid (Some (localDay z t)) entries calls.
Proof.
  unfold InZone.getCurrentWeekEntries, getCurrentWeekEntries.
  cbv zeta. rewrite startOfWeek_regular.
  unfold Array_from. cbn [seq map Eff.Array_map].
  unfold Eff.tryCatch. f_equal.
  unfold Eff.bind at 1.
  repeat (unfold Eff.bind at 1;
          rewrite weekDate_regular by (cbn; lia)).
  cbn [Z.of_nat Pos.of_succ_nat Pos.succ].
  reflexivity.
Qed.

End RegularWeek.

(** In UTC every week inside the range of time values is regular. *)
Lemma utc_regular (t : Z) :
  - JSDate.maxTime
    <= DateFns.startOfWeek (JSDate.localDay 0 t) * JSDate.msPerDay ->
  (DateFns.startOfWeek (JSDate.localDay 0 t) + 6) * JSDate.msPerDay
    <= JSDate.maxTime ->
  t <= JSDate.maxTime ->
  JSDate.regularWeek Zones.utc 0 t.
Proof.
  intros Hlo Hhi Ht. unfold JSDate.regularWeek.
  split; [unfold JSDate.msPerDay; lia|].
  split; [intros x _; split; reflexivity|].
  rewrite !Z.sub_0_r. auto.
Qed.


(** A week is not always regular: Pacific/Apia went from 2011-12-29
    straight to 2011-12-31.  The window of Tuesday 2011-12-27 there has
    Saturday's date twice and no 2011-12-30. *)
Lemma weekWindow_across_a_skipped_day :
  map date
    (Eff.listOf
       (InZone.getCurrentWeekEntries Zones.apia Sample.uuid
          (Some (JSDate.TimeValue
                   (15335 * JSDate.msPerDay + 10 * Zones.hour)))
          Sample.monWed 0%nat))
  = ["2011-12-25"; "2011-12-26"; "2011-12-27"; "2011-12-28"; "2011-12-29";
     "2011-12-31"; "2011-12-31"]%string.
Proof. vm_compute. reflexivity. Qed.



(* ================================================================== *)
(** ** Numbers *)

Lemma Qgtb_true_iff (x y : Q) : JS.Qgtb x y = true <-> (y < x)%Q.
Proof.
  unfold JS.Qgtb. rewrite negb_true_iff. split.
  - intros H. apply Qnot_le_lt. intros Hle.
    apply Qle_bool_iff in Hle. congruence.
  - intros H. destruct (Qle_bool x y) eqn:E; [|reflexivity].
    apply Qle_bool_iff in E. exfalso. exact (Qlt_not_le _ _ H E).
Qed.

Lemma Qgtb_false_iff (x y : Q) : JS.Qgtb x y = false <-> (x <= y)%Q.
Proof.
  unfold JS.Qgtb. rewrite negb_false_iff. apply Qle_bool_iff.
Qed.

Lemma max_keeps (values : list Q) (h : Q) :
  (forall v, In v values -> (v <= h)%Q) ->
  fold_left JS.maxStep values (JS.Num h) = JS.Num h.
Proof.
  induction values as [|v values IH]; intros H; cbn [fold_left JS.maxStep];
    [reflexivity|].
  rewrite (proj2 (Qgtb_false_iff v h) (H v (or_introl eq_refl))).
  apply IH. intros w Hw. apply H. right. assumption.
Qed.

Lemma max_below (values : list Q) (b : Q) : forall h,
  (forall v, In v values -> (v < b)%Q) -> (h < b)%Q ->
  exists h', fold_left JS.maxStep values (JS.Num h) = JS.Num h' /\ (h' < b)%Q.
Proof.
  induction values as [|v values IH]; intros h H Hh; cbn [fold_left JS.maxStep].
  - exists h. split; [reflexivity|assumption].
  - destruct (JS.Qgtb v h).
    + apply IH; [|apply H; left; reflexivity].
      intros w Hw. apply H. right. assumption.
    + apply IH; [|assumption]. intros w Hw. apply H. right. assumption.
Qed.

Lemma max_from (values : list Q) : forall h,
  exists m, fold_left JS.maxStep values (JS.Num h) = JS.Num m /\
            (h <= m)%Q /\ (forall v, In v values -> (v <= m)%Q).
Proof.
  induction values as [|v values IH]; intros h; cbn [fold_left JS.maxStep].
  - exists h. split; [reflexivity|]. split; [apply Qle_refl|intros v []].
  - destruct (JS.Qgtb v h) eqn:E.
    + destruct (IH v) as (m & Em & Hvm & Hall). exists m.
      split; [exact Em|]. apply Qgtb_true_iff in E. split.
      * apply Qlt_le_weak. eapply Qlt_le_trans; eassumption.
      * intros w [<-|Hw]; [assumption|apply Hall; assumption].
    + destruct (IH h) as (m & Em & Hhm & Hall). exists m.
      split; [exact Em|]. apply Qgtb_false_iff in E. split; [assumption|].
      intros w [<-|Hw]; [|apply Hall; assumption].
      eapply Qle_trans; eassumption.
Qed.

(** [Math.max] of a non-empty list is an upper bound of it. *)
Lemma Math_max_upper (values : list Q) (m : Q) :
  JS.Math_max values = JS.Num m -> forall v, In v values -> (v <= m)%Q.
Proof.
  unfold JS.Math_max. destruct values as [|v0 values]; cbn [fold_left JS.maxStep];
    [discriminate|].
  intros E. destruct (max_from values v0) as (m' & Em & Hv0 & Hall).
  rewrite Em in E. injection E as <-.
  intros v [<-|Hv]; [assumption|apply Hall; assumption].
Qed.

Lemma Math_max_empty (values : list Q) :
  JS.Math_max values = JS.NegInfinity -> values = [].
Proof.
  unfold JS.Math_max. destruct values as [|v0 values]; cbn [fold_left JS.maxStep];
    [reflexivity|].
  destruct (max_from values v0) as (m & Em & _). rewrite Em. discriminate.
Qed.

(** [Math.max] is the first value that no earlier value reaches and no
    later value exceeds. *)
Lemma Math_max_first (l1 : list Q) (a : Q) (l2 : list Q) :
  (forall v, In v l1 -> (v < a)%Q) -> (forall v, In v l2 -> (v <= a)%Q) ->
  JS.Math_max (l1 ++ a :: l2) = JS.Num a.
Proof.
  intros H1 H2. unfold JS.Math_max. rewrite fold_left_app. cbn [fold_left JS.maxStep].
  destruct l1 as [|v0 l1]; cbn [fold_left JS.maxStep].
  - apply max_keeps. assumption.
  - destruct (max_below l1 a v0) as (h' & Eh & Hh).
    + intros v Hv. apply H1. right. assumption.
    + apply H1. left. reflexivity.
    + rewrite Eh. cbn [JS.maxStep]. rewrite (proj2 (Qgtb_true_iff a h') Hh).
      apply max_keeps. assumption.
Qed.


(* ================================================================== *)
(** ** Rounding to binary64 *)

Section Rounding.
Import Float64.
Local Open Scope Q_scope.

Lemma rne_cases (x : Q) :
  (x - inject_Z (Qfloor x) < 1 # 2 /\ rne x = Qfloor x) \/
  (x - inject_Z (Qfloor x) == 1 # 2 /\
   rne x = if Z.even (Qfloor x) then Qfloor x else (Qfloor x + 1)%Z) \/
  (1 # 2 < x - inject_Z (Qfloor x) /\ rne x = (Qfloor x + 1)%Z).
Proof.
  unfold rne. cbv zeta.
  destruct (Qcompare_spec (x - inject_Z (Qfloor x)) (1 # 2)) as [H|H|H];
    auto.
Qed.

Lemma rne_comp (x y : Q) : x == y -> rne x = rne y.
Proof.
  intros H. unfold rne. cbv zeta. rewrite (Qfloor_comp x y H).
  rewrite (Qcompare_comp (x - inject_Z (Qfloor y)) (y - inject_Z (Qfloor y))
             ltac:(rewrite H; reflexivity) (1 # 2) (1 # 2) (Qeq_refl _)).
  reflexivity.
Qed.

Lemma rne_Z (k : Z) : rne (inject_Z k) = k.
Proof.
  destruct (rne_cases (inject_Z k)) as [[_ E]|[[H _]|[H _]]];
    rewrite Qfloor_Z in *; [exact E| |]; exfalso; lra.
Qed.

Lemma rne_bounds (x : Q) : (Qfloor x <= rne x <= Qfloor x + 1)%Z.
Proof.
  destruct (rne_cases x) as [[_ E]|[[_ E]|[_ E]]]; rewrite E;
    try destruct (Z.even (Qfloor x)); lia.
Qed.

Lemma rne_le_Z (x : Q) (k : Z) : x <= inject_Z k -> (rne x <= k)%Z.
Proof.
  intros H. destruct (Qlt_le_dec x (inject_Z k)) as [Hlt|Hge].
  - pose proof (rne_bounds x). pose proof (Qfloor_le x) as Hf.
    assert (inject_Z (Qfloor x) < inject_Z k) as Hk by lra.
    rewrite <- Zlt_Qlt in Hk. lia.
  - rewrite (rne_comp x (inject_Z k)) by lra. rewrite rne_Z. lia.
Qed.

Lemma rne_ge_Z (x : Q) (k : Z) : inject_Z k <= x -> (k <= rne x)%Z.
Proof.
  intros H. pose proof (rne_bounds x).
  pose proof (Qfloor_resp_le _ _ H) as Hf. rewrite Qfloor_Z in Hf. lia.
Qed.

Lemma rne_mono (x y : Q) : x <= y -> (rne x <= rne y)%Z.
Proof.
  intros H. pose proof (Qfloor_resp_le _ _ H) as Hf.
  destruct (Z.eq_dec (Qfloor x) (Qfloor y)) as [E|E].
  - destruct (rne_cases x) as [[Hx Ex]|[[Hx Ex]|[Hx Ex]]];
      destruct (rne_cases y) as [[Hy Ey]|[[Hy Ey]|[Hy Ey]]];
      rewrite Ex, Ey; rewrite E in *;
      try destruct (Z.even (Qfloor y)); try lia; exfalso; lra.
  - pose proof (rne_bounds x). pose proof (rne_bounds y). lia.
Qed.

Lemma pow2_pos (k : Z) : (0 <= k)%Z -> 0 < inject_Z (2 ^ k).
Proof.
  intros H. change 0 with (inject_Z 0). rewrite <- Zlt_Qlt.
  apply Z.pow_pos_nonneg; lia.
Qed.

Lemma scale_pos : 0 < scale.
Proof. apply pow2_pos. lia. Qed.

Lemma ulpExp_nonneg (n : Q) : (0 <= ulpExp n)%Z.
Proof. unfold ulpExp. lia. Qed.

Lemma ulpExp_comp (n n' : Q) : n == n' -> ulpExp n = ulpExp n'.
Proof. intros H. unfold ulpExp. rewrite (Qfloor_comp _ _ H). reflexivity. Qed.

Lemma significand_comp (n n' : Q) : n == n' -> significand n = significand n'.
Proof.
  intros H. unfold significand. rewrite (ulpExp_comp _ _ H).
  apply rne_comp. rewrite H. reflexivity.
Qed.

Lemma roundPos_comp (q q' : Q) : q == q' -> roundPos q = roundPos q'.
Proof.
  intros H. unfold roundPos. cbv zeta.
  assert (E : q * scale == q' * scale) by (rewrite H; reflexivity).
  rewrite (significand_comp _ _ E), (ulpExp_comp _ _ E). reflexivity.
Qed.

Lemma round_comp (q q' : Q) : q == q' -> round q = round q'.
Proof.
  intros H. unfold round.
  rewrite (Qcompare_comp q q' H 0 0 (Qeq_refl 0)).
  rewrite (roundPos_comp q q' H).
  rewrite (roundPos_comp (- q) (- q')) by (rewrite H; reflexivity).
  reflexivity.
Qed.

Lemma floor_range (n : Q) :
  0 <= n ->
  (0 <= Qfloor n)%Z /\ inject_Z (Qfloor n) <= n /\
  n < inject_Z (Qfloor n + 1).
Proof.
  intros H. split; [|split; [apply Qfloor_le|apply Qlt_floor]].
  exact (Qfloor_resp_le 0 n H).
Qed.

(** The significand of a non-negative value has at most 53 bits, and 53
    bits exactly above the subnormal range. *)
Lemma significand_bounds (n : Q) :
  0 <= n ->
  (0 <= significand n <= 2 ^ 53)%Z /\
  ((0 < ulpExp n)%Z -> (2 ^ 52 <= significand n)%Z).
Proof.
  intros Hn. destruct (floor_range n Hn) as (Hf0 & Hfl & Hfu).
  unfold significand.
  assert (Hs : (0 <= ulpExp n)%Z) by apply ulpExp_nonneg.
  pose proof (pow2_pos _ Hs) as Hp.
  assert (Hlo : (0 <= rne (n / inject_Z (2 ^ ulpExp n)))%Z).
  { apply rne_ge_Z. apply Qle_shift_div_l; [exact Hp|].
    change (inject_Z 0) with 0. rewrite Qmult_0_l. exact Hn. }
  destruct (Z.eq_dec (Qfloor n) 0) as [E0|E0].
  - assert (Es : ulpExp n = 0%Z) by (unfold ulpExp; rewrite E0; reflexivity).
    rewrite Es in *. split; [|lia]. split; [exact Hlo|].
    apply rne_le_Z. apply Qle_shift_div_r; [exact Hp|].
    rewrite E0 in Hfu. rewrite <- inject_Z_mult.
    apply Qlt_le_weak. eapply Qlt_le_trans; [exact Hfu|].
    rewrite <- Zle_Qle. lia.
  - assert (Hpos : (0 < Qfloor n)%Z) by lia.
    destruct (Z.log2_spec _ Hpos) as [Hl Hu].
    pose proof (Z.log2_nonneg (Qfloor n)) as Hl0.
    assert (Hup : (Qfloor n + 1 <= 2 ^ (ulpExp n + 53))%Z).
    { unfold ulpExp.
      destruct (Z.max_spec 0 (Z.log2 (Qfloor n) - 52)) as [[Hc ->]|[Hc ->]].
      - replace (Z.log2 (Qfloor n) - 52 + 53)%Z
          with (Z.succ (Z.log2 (Qfloor n))) by lia. lia.
      - assert (2 ^ Z.succ (Z.log2 (Qfloor n)) <= 2 ^ (0 + 53))%Z
          by (apply Z.pow_le_mono_r; lia).
        lia. }
    split; [split; [exact Hlo|]|].
    + apply rne_le_Z. apply Qle_shift_div_r; [exact Hp|].
      rewrite <- inject_Z_mult, <- Z.pow_add_r by lia.
      apply Qlt_le_weak. eapply Qlt_le_trans; [exact Hfu|].
      rewrite <- Zle_Qle. replace (53 + ulpExp n)%Z with (ulpExp n + 53)%Z by lia.
      exact Hup.
    + intros Hs1. apply rne_ge_Z. apply Qle_shift_div_l; [exact Hp|].
      rewrite <- inject_Z_mult, <- Z.pow_add_r by lia.
      eapply Qle_trans; [|exact Hfl]. rewrite <- Zle_Qle.
      assert (Es : ulpExp n = (Z.log2 (Qfloor n) - 52)%Z)
        by (unfold ulpExp in *; lia).
      rewrite Es. replace (52 + (Z.log2 (Qfloor n) - 52))%Z
        with (Z.log2 (Qfloor n)) by lia.
      exact Hl.
Qed.

(** A value [M * 2^e] quanta with [M] of at most 53 bits, below the
    overflow threshold, is a double: rounding returns it. *)
Lemma roundPos_exact (q : Q) (M e : Z) :
  (0 <= e)%Z -> (0 < M <= 2 ^ 53)%Z -> (M * 2 ^ e < 2 ^ 2098)%Z ->
  q * scale == inject_Z (M * 2 ^ e) ->
  roundPos q = Finite (Qred (inject_Z (M * 2 ^ e) / scale)).
Proof.
  intros He HM Hv Hq. unfold roundPos. cbv zeta.
  rewrite (significand_comp _ _ Hq), (ulpExp_comp _ _ Hq).
  set (V := (M * 2 ^ e)%Z) in *.
  assert (Hlog : Z.log2 V = (e + Z.log2 M)%Z)
    by (apply Z.log2_mul_pow2; lia).
  assert (HlM : (0 <= Z.log2 M <= 53)%Z).
  { split; [apply Z.log2_nonneg|].
    rewrite <- (Z.log2_pow2 53) by lia. apply Z.log2_le_mono. lia. }
  assert (Hs : ulpExp (inject_Z V) = Z.max 0 (e + Z.log2 M - 52))
    by (unfold ulpExp; rewrite Qfloor_Z, Hlog; reflexivity).
  assert (Hdiv : exists m', V = (m' * 2 ^ ulpExp (inject_Z V))%Z).
  { rewrite Hs. destruct (Z.eq_dec (Z.log2 M) 53) as [E|E].
    - assert (M = 2 ^ 53)%Z as ->.
      { destruct (Z.log2_spec M ltac:(lia)) as [Hl _]. rewrite E in Hl. lia. }
      exists (2 ^ 52)%Z. subst V.
      replace (Z.max 0 (e + Z.log2 (2 ^ 53) - 52)) with (e + 1)%Z
        by (rewrite Z.log2_pow2; lia).
      rewrite <- !Z.pow_add_r by lia. f_equal. lia.
    - set (s := Z.max 0 (e + Z.log2 M - 52)).
      assert (0 <= s <= e)%Z by (subst s; lia).
      exists (M * 2 ^ (e - s))%Z. subst V.
      rewrite <- Z.mul_assoc, <- Z.pow_add_r by lia. do 2 f_equal. lia. }
  destruct Hdiv as [m' Hm'].
  assert (Hsig : significand (inject_Z V) = m').
  { unfold significand.
    pose proof (pow2_pos _ (ulpExp_nonneg (inject_Z V))) as Hp.
    rewrite (rne_comp _ (inject_Z m')); [apply rne_Z|].
    rewrite Hm' at 1. rewrite inject_Z_mult. field.
    intros H0. rewrite H0 in Hp. discriminate. }
  rewrite Hsig, <- Hm'.
  destruct (Z.ltb_spec V (2 ^ 2098)) as [_|Hge]; [reflexivity|lia].
Qed.

Lemma scaled_back (v : Z) : inject_Z v / scale * scale == inject_Z v.
Proof. field. intros H. pose proof scale_pos. rewrite H in *. discriminate. Qed.

Lemma roundPos_idem (q r : Q) :
  0 <= q -> roundPos q = Finite r ->
  0 <= r /\ (r == 0 -> r = 0) /\ (0 < r -> roundPos r = Finite r).
Proof.
  intros Hq. unfold roundPos. cbv zeta.
  set (n := q * scale).
  assert (Hn : 0 <= n).
  { subst n. pose proof scale_pos. apply Qmult_le_0_compat; lra. }
  destruct (significand_bounds n Hn) as [[Hm0 Hm1] _].
  pose proof (ulpExp_nonneg n) as Hs.
  destruct (Z.ltb_spec (significand n * 2 ^ ulpExp n) (2 ^ 2098))
    as [Hlt|]; [|discriminate].
  intros [= <-].
  set (v := (significand n * 2 ^ ulpExp n)%Z) in *.
  assert (Hv0 : (0 <= v)%Z) by (subst v; apply Z.mul_nonneg_nonneg; lia).
  assert (Hval : Qred (inject_Z v / scale) == inject_Z v / scale)
    by apply Qred_correct.
  pose proof scale_pos as Hsc.
  assert (Hnn : 0 <= inject_Z v / scale).
  { apply Qle_shift_div_l; [exact Hsc|]. rewrite Qmult_0_l.
    change 0 with (inject_Z 0). rewrite <- Zle_Qle. exact Hv0. }
  split; [rewrite Hval; exact Hnn|]. split.
  - intros H0. change (Qred (inject_Z v / scale) = Qred 0).
    apply Qred_complete. rewrite <- Hval. exact H0.
  - intros Hpos.
    assert (Hm : (0 < significand n)%Z).
    { destruct (Z.eq_dec (significand n) 0) as [E|E]; [|lia].
      exfalso. subst v. rewrite E, Z.mul_0_l in Hval, Hpos.
      rewrite Hval in Hpos. unfold Qdiv in Hpos. rewrite Qmult_0_l in Hpos.
      discriminate. }
    apply (roundPos_exact _ (significand n) (ulpExp n)); try lia.
    rewrite Hval. apply scaled_back.
Qed.

(** Rounding a double gives the same double. *)
Lemma round_idem (q r : Q) : round q = Finite r -> round r = Finite r.
Proof.
  unfold round at 1.
  destruct (Qcompare_spec q 0) as [H|H|H].
  - intros [= <-]. reflexivity.
  - destruct (roundPos (- q)) as [| |r'|] eqn:E; try discriminate.
    intros [= <-].
    destruct (roundPos_idem (- q) r' ltac:(lra) E) as (Hr & Hz & Hp).
    destruct (Qlt_le_dec 0 r') as [Hlt|Hle].
    + unfold round.
      destruct (Qcompare_spec (- r') 0) as [H'|H'|H']; try (exfalso; lra).
      rewrite (roundPos_comp (- - r') r') by ring.
      rewrite (Hp Hlt). reflexivity.
    + rewrite (Hz ltac:(lra)). reflexivity.
  - intros E.
    destruct (roundPos_idem q r ltac:(lra) E) as (Hr & Hz & Hp).
    destruct (Qlt_le_dec 0 r) as [Hlt|Hle].
    + unfold round.
      destruct (Qcompare_spec r 0) as [H'|H'|H']; try (exfalso; lra).
      exact (Hp Hlt).
    + rewrite (Hz ltac:(lra)). reflexivity.
Qed.

(** Whole numbers up to [2^53] are doubles. *)
Lemma round_int (k : Z) :
  (0 <= k <= 2 ^ 53)%Z ->
  exists r, round (inject_Z k) = Finite r /\ r == inject_Z k.
Proof.
  intros Hk. unfold round.
  destruct (Qcompare_spec (inject_Z k) 0) as [H|H|H].
  - exists 0. split; [reflexivity|]. symmetry. exact H.
  - exfalso. change 0 with (inject_Z 0) in H. rewrite <- Zlt_Qlt in H. lia.
  - change 0 with (inject_Z 0) in H. rewrite <- Zlt_Qlt in H.
    eexists. split.
    + assert (Hb : (k * 2 ^ 1074 < 2 ^ 2098)%Z).
      { assert (2 ^ 53 * 2 ^ 1074 < 2 ^ 2098)%Z by (vm_compute; reflexivity).
        assert (k * 2 ^ 1074 <= 2 ^ 53 * 2 ^ 1074)%Z
          by (apply Z.mul_le_mono_nonneg_r; [apply Z.pow_nonneg|]; lia).
        eapply Z.le_lt_trans; eassumption. }
      apply (roundPos_exact _ k 1074 ltac:(discriminate) (conj H (proj2 Hk)) Hb).
      unfold scale. rewrite inject_Z_mult. reflexivity.
    + rewrite Qred_correct, inject_Z_mult.
      change (inject_Z (2 ^ 1074)) with scale. field.
      intros H0. pose proof scale_pos. rewrite H0 in *. discriminate.
Qed.

(** The rounded value, in quanta, grows with the value rounded. *)
Lemma units_mono (x y : Q) :
  0 <= x -> x <= y ->
  (significand (x * scale) * 2 ^ ulpExp (x * scale)
   <= significand (y * scale) * 2 ^ ulpExp (y * scale))%Z.
Proof.
  intros Hx Hxy. pose proof scale_pos as Hsc.
  set (nx := x * scale). set (ny := y * scale).
  assert (Hnx : 0 <= nx) by (subst nx; apply Qmult_le_0_compat; lra).
  assert (Hn : nx <= ny) by (subst nx ny; apply Qmult_le_compat_r; lra).
  assert (Hny : 0 <= ny) by lra.
  destruct (significand_bounds nx Hnx) as [[Hx0 Hx1] _].
  destruct (significand_bounds ny Hny) as [[Hy0 Hy1] Hy2].
  pose proof (ulpExp_nonneg nx) as Hsx. pose proof (ulpExp_nonneg ny) as Hsy.
  assert (Hs : (ulpExp nx <= ulpExp ny)%Z).
  { unfold ulpExp. pose proof (Qfloor_resp_le _ _ Hn) as Hf.
    pose proof (Z.log2_le_mono _ _ Hf). lia. }
  destruct (Z.eq_dec (ulpExp nx) (ulpExp ny)) as [E|E].
  - rewrite E. apply Z.mul_le_mono_nonneg_r; [apply Z.pow_nonneg; lia|].
    unfold significand. rewrite E. apply rne_mono.
    pose proof (pow2_pos _ Hsy) as Hp.
    unfold Qdiv. apply Qmult_le_compat_r; [exact Hn|].
    apply Qlt_le_weak, Qinv_lt_0_compat, Hp.
  - specialize (Hy2 ltac:(lia)).
    apply Z.le_trans with (2 ^ 53 * 2 ^ ulpExp nx)%Z;
      [apply Z.mul_le_mono_nonneg_r; [apply Z.pow_nonneg|]; lia|].
    apply Z.le_trans with (2 ^ 52 * 2 ^ ulpExp ny)%Z;
      [|apply Z.mul_le_mono_nonneg_r; [apply Z.pow_nonneg|]; lia].
    rewrite <- !Z.pow_add_r by lia. apply Z.pow_le_mono_r; lia.
Qed.

Lemma roundPos_mono (x y : Q) :
  0 <= x -> x <= y -> le (roundPos x) (roundPos y).
Proof.
  intros Hx Hxy. pose proof (units_mono x y Hx Hxy) as Hu.
  unfold roundPos. cbv zeta.
  set (vx := (significand (x * scale) * 2 ^ ulpExp (x * scale))%Z) in *.
  set (vy := (significand (y * scale) * 2 ^ ulpExp (y * scale))%Z) in *.
  destruct (Z.ltb_spec vy (2 ^ 2098)) as [Hy|Hy].
  - destruct (Z.ltb_spec vx (2 ^ 2098)) as [_|Hx'];
      [|exfalso; exact (Zorder.Zlt_not_le _ _ Hy (Z.le_trans _ _ _ Hx' Hu))].
    cbn [le]. rewrite !Qred_correct. pose proof scale_pos as Hsc.
    unfold Qdiv. apply Qmult_le_compat_r;
      [rewrite <- Zle_Qle; exact Hu|].
    apply Qlt_le_weak, Qinv_lt_0_compat, Hsc.
  - destruct (vx <? 2 ^ 2098)%Z; exact I.
Qed.

Lemma roundPos_nonneg (q : Q) : 0 <= q -> le (Finite 0) (roundPos q).
Proof.
  intros Hq. unfold roundPos. cbv zeta.
  match goal with |- context [(?v <? _)%Z] => destruct (v <? 2 ^ 2098)%Z eqn:E end;
    [|exact I].
  cbn [le]. rewrite Qred_correct. pose proof scale_pos as Hsc.
  apply Qle_shift_div_l; [exact Hsc|]. rewrite Qmult_0_l.
  change 0 with (inject_Z 0). rewrite <- Zle_Qle.
  assert (Hn : 0 <= q * scale) by (apply Qmult_le_0_compat; lra).
  destruct (significand_bounds _ Hn) as [[H0 _] _].
  apply Z.mul_nonneg_nonneg; [exact H0|apply Z.pow_nonneg; lia].
Qed.

Lemma f64_le_neg (x y : t) : le x y -> le (neg y) (neg x).
Proof.
  destruct x, y; cbn [le neg]; try tauto. intros H. lra.
Qed.

Lemma f64_le_trans (x y z : t) : le x y -> le y z -> le x z.
Proof.
  destruct x, y, z; cbn [le]; try tauto. intros; lra.
Qed.

(** Rounding is monotone. *)
Lemma round_mono (x y : Q) : x <= y -> le (round x) (round y).
Proof.
  intros H. unfold round.
  destruct (Qcompare_spec x 0) as [Hx|Hx|Hx];
    destruct (Qcompare_spec y 0) as [Hy|Hy|Hy]; try (exfalso; lra).
  - cbn. lra.
  - apply roundPos_nonneg. lra.
  - apply (f64_le_neg (Finite 0)). apply roundPos_nonneg. lra.
  - apply f64_le_neg. apply roundPos_mono; lra.
  - apply f64_le_trans with (Finite 0).
    + apply (f64_le_neg (Finite 0)). apply roundPos_nonneg. lra.
    + apply roundPos_nonneg. lra.
  - apply roundPos_mono; lra.
Qed.

End Rounding.

(* ================================================================== *)
(** ** Weekly statistics *)

Lemma productiveDays_filter (week : list SolarEntry) :
  List.length (filter (fun entry => JS.Qgtb entry.(production) 0) week)
  = Spec.productiveDays week.
Proof.
  induction week as [|e week IH]; cbn [filter Spec.productiveDays];
    [reflexivity|].
  destruct (Qlt_le_dec 0 (production e)) as [Hlt|Hle].
  - rewrite (proj2 (Qgtb_true_iff _ _) Hlt). cbn [List.length].
    rewrite IH. reflexivity.
  - rewrite (proj2 (Qgtb_false_iff _ _) Hle). exact IH.
Qed.


Lemma summary_eq (week : list SolarEntry) :
  WeeklySummary.summary week = calculateWeeklyStats week.
Proof. reflexivity. Qed.


Section Sums.
Import Float64.
Local Open Scope Q_scope.

(** Adding a zero changes nothing, at the start of a sum and after any
    addition. *)
Lemma add_zero_first (v : Q) :
  v == 0 -> add (Finite 0) (Finite v) = Finite 0.
Proof.
  intros H. cbn [add]. rewrite (round_comp (0 + v) 0) by lra. reflexivity.
Qed.



Lemma whole_total (week : list SolarEntry) :
  wholeNumbers week ->
  exists T, (0 <= T)%Z /\ Spec.total week == inject_Z T.
Proof.
  induction 1 as [|e week (k & Hk & Ek) _ (T & HT & ET)]; cbn [Spec.total].
  - exists 0%Z. split; [lia|reflexivity].
  - exists (k + T)%Z. split; [lia|].
    rewrite Ek, ET, inject_Z_plus. reflexivity.
Qed.

(** On whole numbers no addition rounds, as long as the total stays below
    [2^53]. *)
Lemma total_whole (week : list SolarEntry) :
  wholeNumbers week ->
  forall (K : Z) (a : Q),
    (0 <= K)%Z -> a == inject_Z K ->
    a + Spec.total week <= inject_Z (2 ^ 53) ->
    exists r,
      fold_left (fun sum entry => add sum (Finite entry.(production)))
                week (Finite a)
      = Finite r /\
      r == a + Spec.total week.
Proof.
  induction 1 as [|e week (k & Hk & Ek) Hweek IH]; intros K a HK Ea Hb;
    cbn [fold_left Spec.total] in *.
  - exists a. split; [reflexivity|lra].
  - destruct (whole_total week Hweek) as (T & HT & ET).
    assert (Hsum : (0 <= K + k <= 2 ^ 53)%Z).
    { split; [lia|]. rewrite Zle_Qle.
      eapply Qle_trans; [|exact Hb].
      rewrite Ea, Ek, ET, <- !inject_Z_plus, <- Zle_Qle. lia. }
    destruct (round_int (K + k) Hsum) as (r & Er & Hr).
    assert (Eadd : add (Finite a) (Finite (production e)) = Finite r).
    { cbn [add]. rewrite (round_comp _ (inject_Z (K + k))); [exact Er|].
      rewrite Ea, Ek, inject_Z_plus. reflexivity. }
    rewrite Eadd.
    destruct (IH (K + k)%Z r (proj1 Hsum) Hr) as (r' & Er' & Hr').
    { rewrite Hr, inject_Z_plus, <- Ea, <- Ek. lra. }
    exists r'. split; [exact Er'|].
    rewrite Hr', Hr, inject_Z_plus, <- Ea, <- Ek. ring.
Qed.

Lemma dailyAverage_div (week : list SolarEntry) :
  dailyAverage (calculateWeeklyStats week)
  = match Spec.productiveDays week with
    | O => Finite 0
    | S n => div (weeklyTotal (calculateWeeklyStats week)) (ofNat (S n))
    end.
Proof.
  cbn [calculateWeeklyStats dailyAverage weeklyTotal].
  rewrite productiveDays_filter.
  destruct (Spec.productiveDays week); reflexivity.
Qed.

Lemma div_count (r : Q) (n : nat) :
  div (Finite r) (ofNat (S n)) = round (r / inject_Z (Z.of_nat (S n))).
Proof.
  unfold div, ofNat.
  destruct (Qcompare_spec (inject_Z (Z.of_nat (S n))) 0) as [H|H|H];
    try reflexivity.
  exfalso. unfold Qeq in H. cbn [inject_Z Qnum Qden] in H. lia.
Qed.

Lemma all_zero_total64 (week : list SolarEntry) :
  Forall (fun e => e.(production) == 0) week ->
  weeklyTotal (calculateWeeklyStats week) = Finite 0.
Proof.
  cbn [calculateWeeklyStats weeklyTotal].
  induction 1 as [|e week He _ IH]; cbn [fold_left]; [reflexivity|].
  rewrite (add_zero_first _ He). exact IH.
Qed.

End Sums.

(** C2 fails as stated: the total is a sum of doubles, rounded at every
    addition.  With 0.1 saved for Monday and 0.2 for Tuesday the window has
    total 0.30000000000000004 and daily average 0.15000000000000002,
    neither of which is the sum, or the quotient, of the productions. *)
Lemma weeklyTotal_is_not_the_exact_sum :
  Float64.round (1 # 10) = Float64.Finite DecimalSample.tenth /\
  Float64.round (2 # 10) = Float64.Finite DecimalSample.twoTenths /\
  let week :=
    Eff.listOf
      (getCurrentWeekEntries Sample.uuid (Some Sample.monday)
                             DecimalSample.monTue 0%nat) in
  map production week
  = [0; DecimalSample.tenth; DecimalSample.twoTenths; 0; 0; 0; 0]%Q /\
  exists total average,
    weeklyTotal (calculateWeeklyStats week) = Float64.Finite total /\
    dailyAverage (calculateWeeklyStats week) = Float64.Finite average /\
    ~ (total == Spec.total week)%Q /\
    ~ (average == Spec.dailyAverage week)%Q /\
    Float64.round (3 # 10) <> Float64.Finite total.
Proof.
  split; [vm_compute; reflexivity|]. split; [vm_compute; reflexivity|].
  cbv zeta. split; [vm_compute; reflexivity|].
  eexists. eexists.
  split; [vm_compute; reflexivity|]. split; [vm_compute; reflexivity|].
  split; [vm_compute; discriminate|]. split; vm_compute; discriminate.
Qed.

(** C2, as the code has it.  The total is the sum of the productions
    taken from the first day to the last in double arithmetic, spelled out
    on seven days; the daily average is that total divided, in double
    arithmetic, by the number of days with production > 0, and 0 when there
    is no such day.  When the productions are whole numbers whose sum is at
    most [2^53] no operation before the division rounds: the total is the
    sum and the daily average is the double nearest to the sum divided by
    the number of productive days.  A week with productions
    [0, 5, 0, 3, 0, 0, 0] from Sunday has total 8, daily average 4 and
    Monday, with 5, as its best day. *)
Theorem weeklyStats_total_and_average_in_doubles :
  (forall e0 e1 e2 e3 e4 e5 e6,
     weeklyTotal (calculateWeeklyStats [e0; e1; e2; e3; e4; e5; e6])
     = Float64.add
         (Float64.add
            (Float64.add
               (Float64.add
                  (Float64.add
                     (Float64.add
                        (Float64.add (Float64.Finite 0)
                                     (Float64.Finite e0.(production)))
                        (Float64.Finite e1.(production)))
                     (Float64.Finite e2.(production)))
                  (Float64.Finite e3.(production)))
               (Float64.Finite e4.(production)))
            (Float64.Finite e5.(production)))
         (Float64.Finite e6.(production))) /\
  (forall week,
     dailyAverage (calculateWeeklyStats week)
     = match Spec.productiveDays week with
       | O => Float64.Finite 0
       | S n =>
           Float64.div (weeklyTotal (calculateWeeklyStats week))
                       (Float64.ofNat (S n))
       end) /\
  (forall week,
     wholeNumbers week -> (Spec.total week <= inject_Z (2 ^ 53))%Q ->
     exists total,
       weeklyTotal (calculateWeeklyStats week) = Float64.Finite total /\
       (total == Spec.total week)%Q /\
       dailyAverage (calculateWeeklyStats week)
       = Float64.round (Spec.dailyAverage week)) /\
  (forall week,
     map production week = [0; 5; 0; 3; 0; 0; 0]%Q ->
     weeklyTotal (calculateWeeklyStats week) = Float64.Finite 8 /\
     dailyAverage (calculateWeeklyStats week) = Float64.Finite 4 /\
     exists monday,
       nth_error week 1%nat = Some monday /\ monday.(production) = 5%Q /\
       bestDay (calculateWeeklyStats week) = Some monday) /\
  (let week :=
     Eff.listOf
       (getCurrentWeekEntries Sample.uuid (Some Sample.monday)
                              Sample.monWed 0%nat) in
   map production week = [0; 5; 0; 3; 0; 0; 0]%Q /\
   DateFns.getDay Sample.monday = 1 /\
   bestDay (calculateWeeklyStats week)
     = Some (mkEntry (DateFns.format Sample.monday) 5 "a")).
Proof.
  split; [reflexivity|]. split; [exact dailyAverage_div|].
  split; [|split].
  - intros week Hwhole Hb.
    destruct (total_whole week Hwhole 0%Z 0%Q ltac:(lia) ltac:(reflexivity))
      as (r & Er & Hr).
    { rewrite Qplus_0_l. exact Hb. }
    rewrite Qplus_0_l in Hr.
    assert (Et : weeklyTotal (calculateWeeklyStats week) = Float64.Finite r)
      by exact Er.
    exists r. split; [exact Et|]. split; [exact Hr|].
    rewrite dailyAverage_div, Et. unfold Spec.dailyAverage.
    destruct (Spec.productiveDays week) as [|n]; [reflexivity|].
    rewrite div_count. apply round_comp. rewrite Hr. reflexivity.
  - intros week H.
    destruct week as [|[d0 p0 i0] [|[d1 p1 i1] [|[d2 p2 i2] [|[d3 p3 i3]
      [|[d4 p4 i4] [|[d5 p5 i5] [|[d6 p6 i6] [|? ?]]]]]]]]; try discriminate.
    cbn [map production] in H.
    injection H as -> -> -> -> -> -> ->.
    split; [vm_compute; reflexivity|]. split; [vm_compute; reflexivity|].
    eexists. split; [reflexivity|]. split; reflexivity.
  - vm_compute. repeat split.
Qed.

Lemma weeklyStats_total_and_average_in_doubles_witness :
  wholeNumbers Sample.week0503 /\
  (Spec.total Sample.week0503 <= inject_Z (2 ^ 53))%Q /\
  exists total,
    weeklyTotal (calculateWeeklyStats Sample.week0503)
    = Float64.Finite total /\
    (total == 8)%Q /\
    dailyAverage (calculateWeeklyStats Sample.week0503)
    = Float64.round (Spec.dailyAverage Sample.week0503).
Proof.
  assert (Hw : wholeNumbers Sample.week0503).
  { repeat constructor;
      [exists 0|exists 5|exists 0|exists 3|exists 0|exists 0|exists 0];
      split; try reflexivity; discriminate. }
  assert (Hb : (Spec.total Sample.week0503 <= inject_Z (2 ^ 53))%Q)
    by (vm_compute; discriminate).
  split; [exact Hw|]. split; [exact Hb|].
  destruct (proj1 (proj2 (proj2 weeklyStats_total_and_average_in_doubles))
              Sample.week0503 Hw Hb) as (total & Et & Hs & Ha).
  exists total. split; [exact Et|]. split; [|exact Ha].
  rewrite Hs. vm_compute. reflexivity.
Defined.

Lemma all_zero_productiveDays (week : list SolarEntry) :
  Forall (fun e => (e.(production) == 0)%Q) week ->
  Spec.productiveDays week = O.
Proof.
  induction 1 as [|e week He _ IH]; cbn [Spec.productiveDays]; [reflexivity|].
  destruct (Qlt_le_dec 0 (production e)) as [Hlt|_]; [|exact IH].
  rewrite He in Hlt. discriminate.
Qed.

Lemma all_zero_max (week : list SolarEntry) :
  Forall (fun e => (e.(production) == 0)%Q) week ->
  JS.gt0 (JS.Math_max (map production week)) = false.
Proof.
  intros H. destruct (JS.Math_max (map production week)) as [|m] eqn:E;
    [reflexivity|].
  cbn [JS.gt0]. apply Qgtb_false_iff.
  destruct week as [|e week]; [discriminate|].
  unfold JS.Math_max in E. cbn [map fold_left JS.maxStep] in E.
  rewrite max_keeps in E.
  - injection E as <-. inversion H; subst.
    match goal with He : (production e == 0)%Q |- _ => rewrite He end.
    apply Qle_refl.
  - intros v Hv. apply in_map_iff in Hv as (e' & <- & He').
    inversion H as [|? ? He Hweek]; subst.
    rewrite Forall_forall in Hweek. rewrite (Hweek e' He'), He.
    apply Qle_refl.
Qed.

(** The raw [maxProductionDay] of an all-zero week is its first day; only
    the guard [maxProduction > 0] keeps it off the card. *)
Lemma all_zero_maxProductionDay (e : SolarEntry) (week : list SolarEntry) :
  Forall (fun e => (e.(production) == 0)%Q) (e :: week) ->
  maxProductionDay (calculateWeeklyStats (e :: week)) = Some e.
Proof.
  intros H. cbn [calculateWeeklyStats maxProductionDay].
  unfold JS.Math_max. cbn [map fold_left JS.maxStep].
  inversion H as [|? ? He Hweek]; subst.
  rewrite max_keeps.
  - cbn [find JS.strictEq]. rewrite Qeq_bool_refl. reflexivity.
  - intros v Hv. apply in_map_iff in Hv as (e' & <- & He').
    rewrite Forall_forall in Hweek. rewrite (Hweek e' He'), He.
    apply Qle_refl.
Qed.


(** C3 fails as stated: on an all-zero week [calculateWeeklyStats]
    returns the first day of the week as [maxProductionDay], not an absent
    one, since every production equals the maximum 0. *)
Lemma all_zero_week_has_a_maxProductionDay :
  Forall (fun e => (e.(production) == 0)%Q) Sample.weekZero /\
  maxProduction (calculateWeeklyStats Sample.weekZero) = JS.Num 0 /\
  maxProductionDay (calculateWeeklyStats Sample.weekZero)
  = Some (mkEntry "2024-01-07" 0 "s") /\
  maxProductionDay (WeeklySummary.summary Sample.weekZero)
  = Some (mkEntry "2024-01-07" 0 "s").
Proof.
  split; [repeat constructor|]. vm_compute. repeat split.
Qed.

(** C3, as the code has it.  On an all-zero week the total is 0 and the
    daily average is 0, and [calculateWeeklyStats], like [WeeklySummary],
    returns the first day of the week as [maxProductionDay], with the
    maximum 0.  The absence is made where the value is displayed: the BEST
    DAY card names a day only when [maxProduction > 0], so with a maximum
    of 0 it names none, in both components. *)
Theorem weeklyStats_all_zero_week :
  (forall week q,
     maxProduction (calculateWeeklyStats week) = JS.Num q -> (q == 0)%Q ->
     bestDay (calculateWeeklyStats week) = None /\
     WeeklySummary.bestDay week = None) /\
  (forall week,
     Forall (fun e => (e.(production) == 0)%Q) week ->
     weeklyTotal (calculateWeeklyStats week) = Float64.Finite 0 /\
     dailyAverage (calculateWeeklyStats week) = Float64.Finite 0 /\
     bestDay (calculateWeeklyStats week) = None /\
     weeklyTotal (WeeklySummary.summary week) = Float64.Finite 0 /\
     dailyAverage (WeeklySummary.summary week) = Float64.Finite 0 /\
     WeeklySummary.bestDay week = None) /\
  (forall e week,
     Forall (fun e => (e.(production) == 0)%Q) (e :: week) ->
     maxProduction (calculateWeeklyStats (e :: week))
       = JS.Num e.(production) /\
     maxProductionDay (calculateWeeklyStats (e :: week)) = Some e /\
     maxProductionDay (WeeklySummary.summary (e :: week)) = Some e).
Proof.
  split; [|split].
  - intros week q Hmax Hq.
    assert (Hb : bestDay (calculateWeeklyStats week) = None).
    { unfold bestDay. rewrite Hmax. cbn [JS.gt0].
      rewrite (proj2 (Qgtb_false_iff q 0)); [reflexivity|].
      rewrite Hq. apply Qle_refl. }
    split; [exact Hb|]. exact Hb.
  - intros week H.
    assert (Ht : weeklyTotal (calculateWeeklyStats week) = Float64.Finite 0)
      by (apply all_zero_total64; assumption).
    assert (Ha : dailyAverage (calculateWeeklyStats week) = Float64.Finite 0).
    { rewrite dailyAverage_div, all_zero_productiveDays by assumption.
      reflexivity. }
    assert (Hb : bestDay (calculateWeeklyStats week) = None).
    { unfold bestDay. cbn [calculateWeeklyStats maxProduction].
      rewrite all_zero_max by assumption. reflexivity. }
    repeat split; assumption.
  - intros e week H.
    assert (Hd : maxProductionDay (calculateWeeklyStats (e :: week)) = Some e)
      by (apply all_zero_maxProductionDay; assumption).
    split; [|split; exact Hd].
    cbn [calculateWeeklyStats maxProduction].
    unfold JS.Math_max. cbn [map fold_left JS.maxStep].
    apply max_keeps. intros v Hv.
    apply in_map_iff in Hv as (e' & <- & He').
    inversion H as [|? ? He Hweek]; subst.
    rewrite Forall_forall in Hweek. rewrite (Hweek e' He'), He.
    apply Qle_refl.
Qed.

Lemma weeklyStats_all_zero_week_witness :
  Forall (fun e => (e.(production) == 0)%Q) Sample.weekZero /\
  weeklyTotal (calculateWeeklyStats Sample.weekZero) = Float64.Finite 0 /\
  dailyAverage (calculateWeeklyStats Sample.weekZero) = Float64.Finite 0 /\
  bestDay (calculateWeeklyStats Sample.weekZero) = None.
Proof.
  assert (H : Forall (fun e => (e.(production) == 0)%Q) Sample.weekZero).
  { repeat constructor. }
  split; [exact H|].
  destruct (proj1 (proj2 weeklyStats_all_zero_week) Sample.weekZero H)
    as (Ht & Ha & Hb & _).
  split; [exact Ht|]. split; [exact Ha|exact Hb].
Defined.

(** C4. The best day is the first day, in the ascending order of the
    window, whose production is the positive maximum: a later day with the
    same production does not replace it.  On the week [Mon:5, Thu:5], the
    other days 0, the best day is Monday. *)
Theorem weeklyStats_best_is_first_maximum :
  (forall l1 a l2,
     (0 < a.(production))%Q ->
     (forall e, In e l1 -> (e.(production) < a.(production))%Q) ->
     (forall e, In e l2 -> (e.(production) <= a.(production))%Q) ->
     bestDay (calculateWeeklyStats (l1 ++ a :: l2)) = Some a) /\
  (forall week b,
     bestDay (calculateWeeklyStats week) = Some b ->
     exists l1 l2,
       week = l1 ++ b :: l2 /\ (0 < b.(production))%Q /\
       (forall e, In e l1 -> (e.(production) < b.(production))%Q) /\
       (forall e, In e l2 -> (e.(production) <= b.(production))%Q)) /\
  (forall week,
     map production week = [0; 5; 0; 0; 5; 0; 0]%Q ->
     exists monday thursday,
       nth_error week 1%nat = Some monday /\
       nth_error week 4%nat = Some thursday /\
       monday.(production) = thursday.(production) /\
       bestDay (calculateWeeklyStats week) = Some monday) /\
  (let week :=
     Eff.listOf
       (getCurrentWeekEntries Sample.uuid (Some Sample.monday)
                              Sample.monThu 0%nat) in
   map production week = [0; 5; 0; 0; 5; 0; 0]%Q /\
   DateFns.getDay Sample.monday = 1 /\
   bestDay (calculateWeeklyStats week)
     = Some (mkEntry (DateFns.format Sample.monday) 5 "m")).
Proof.
  split; [|split; [|split]].
  - intros l1 a l2 Hpos H1 H2.
    unfold bestDay. cbn [calculateWeeklyStats maxProduction maxProductionDay].
    set (m := JS.Math_max _).
    assert (Em : m = JS.Num (production a)).
    { subst m. rewrite map_app. cbn [map]. apply Math_max_first.
      - intros v Hv. apply in_map_iff in Hv as (e & <- & He). apply H1, He.
      - intros v Hv. apply in_map_iff in Hv as (e & <- & He). apply H2, He. }
    clearbody m. subst m.
    cbn [JS.gt0]. rewrite (proj2 (Qgtb_true_iff _ _) Hpos).
    apply find_first.
    + intros y Hy. cbn [JS.strictEq].
      destruct (Qeq_bool (production y) (production a)) eqn:E;
        [|reflexivity].
      apply Qeq_bool_iff in E. pose proof (H1 y Hy) as Hlt.
      rewrite E in Hlt. exfalso. exact (Qlt_irrefl _ Hlt).
    + cbn [JS.strictEq]. apply Qeq_bool_refl.
  - intros week b. unfold bestDay.
    cbn [calculateWeeklyStats maxProduction maxProductionDay].
    destruct (JS.Math_max (map production week)) as [|m] eqn:Emax;
      cbn [JS.gt0]; [discriminate|].
    destruct (JS.Qgtb m 0) eqn:Hpos; [|discriminate].
    apply Qgtb_true_iff in Hpos.
    intros Hfind. apply find_split in Hfind as (l1 & l2 & -> & Hb & Hl1).
    cbn [JS.strictEq] in Hb. apply Qeq_bool_iff in Hb.
    pose proof (Math_max_upper _ _ Emax) as Hup.
    exists l1, l2. split; [reflexivity|]. split; [rewrite Hb; assumption|].
    split.
    + intros e He. rewrite Hb.
      assert (Hle : (production e <= m)%Q).
      { apply Hup. apply in_map. apply in_or_app. left. assumption. }
      pose proof (Hl1 e He) as Hne. cbn [JS.strictEq] in Hne.
      apply Qeq_bool_neq in Hne.
      destruct (Qle_lt_or_eq _ _ Hle) as [Hlt|Heq];
        [assumption|contradiction].
    + intros e He. rewrite Hb. apply Hup. apply in_map.
      apply in_or_app. right. right. assumption.
  - intros week H.
    destruct week as [|[d0 p0 i0] [|[d1 p1 i1] [|[d2 p2 i2] [|[d3 p3 i3]
      [|[d4 p4 i4] [|[d5 p5 i5] [|[d6 p6 i6] [|? ?]]]]]]]]; try discriminate.
    cbn [map production] in H.
    injection H as -> -> -> -> -> -> ->.
    eexists _, _. split; [reflexivity|]. split; [reflexivity|].
    split; reflexivity.
  - vm_compute. repeat split.
Qed.

Lemma weeklyStats_best_is_first_maximum_witness :
  (0 < 5)%Q /\
  bestDay
    (calculateWeeklyStats
       ([mkEntry "2024-01-07" 0 "s"] ++ mkEntry "2024-01-08" 5 "m"
        :: [mkEntry "2024-01-09" 0 "t"; mkEntry "2024-01-10" 0 "w";
            mkEntry "2024-01-11" 5 "h"; mkEntry "2024-01-12" 0 "f";
            mkEntry "2024-01-13" 0 "a"]))
  = Some (mkEntry "2024-01-08" 5 "m").
Proof.
  split; [reflexivity|].
  apply (proj1 weeklyStats_best_is_first_maximum
           [mkEntry "2024-01-07" 0 "s"] (mkEntry "2024-01-08" 5 "m")).
  - reflexivity.
  - intros e [<-|[]]. reflexivity.
  - intros e [<-|[<-|[<-|[<-|[<-|[]]]]]]; discriminate.
Defined.


(* ================================================================== *)
(** ** The chart's reference average *)


(* ================================================================== *)
(** ** The entry store: upsert *)

Section Upsert.
Variable uuid : nat -> string.

Lemma onSubmit_existing day p l1 e l2 calls :
  e.(date) = DateFns.format day ->
  (forall s, In s l1 -> s.(date) <> DateFns.format day) ->
  onSubmit uuid (Some day) p (l1 ++ e :: l2) calls
  = (Eff.Returned (l1 ++ mkEntry e.(date) p e.(id) :: l2), calls).
Proof.
  intros He Hl1. unfold onSubmit, Eff.tryCatch. cbv zeta.
  rewrite findIndex_first.
  - rewrite updateAt_middle. reflexivity.
  - intros y Hy. apply String.eqb_neq. apply Hl1. assumption.
  - apply String.eqb_eq. assumption.
Qed.

Lemma onSubmit_new day p entries calls :
  (forall s, In s entries -> s.(date) <> DateFns.format day) ->
  onSubmit uuid (Some day) p entries calls
  = (Eff.Returned (entries ++ [mkEntry (DateFns.format day) p (uuid calls)]),
     S calls).
Proof.
  intros Hno. unfold onSubmit, Eff.tryCatch. cbv zeta.
  rewrite (proj2 (findIndex_none _ entries)); [reflexivity|].
  intros y Hy. apply String.eqb_neq. apply Hno. assumption.
Qed.

Lemma entriesFor_app d l1 l2 :
  Spec.entriesFor d (l1 ++ l2) = (Spec.entriesFor d l1 + Spec.entriesFor d l2)%nat.
Proof. unfold Spec.entriesFor. rewrite filter_app, length_app. reflexivity. Qed.

Lemma entriesFor_zero d l :
  Spec.entriesFor d l = O <-> forall s, In s l -> s.(date) <> d.
Proof.
  unfold Spec.entriesFor. induction l as [|x l IH]; cbn [filter].
  - split; [intros _ s []|reflexivity].
  - destruct (String.eqb (date x) d) eqn:E; cbn [List.length].
    + split; [discriminate|]. intros H. apply String.eqb_eq in E.
      exfalso. exact (H x (or_introl eq_refl) E).
    + rewrite IH. apply String.eqb_neq in E. split.
      * intros H s [<-|Hs]; [assumption|apply H; assumption].
      * intros H s Hs. apply H. right. assumption.
Qed.

(** Where an upsert writes: the collection is either free of the date, or
    splits at the first entry with it. *)
Lemma entries_split d (entries : list SolarEntry) :
  (forall s, In s entries -> s.(date) <> d) \/
  exists l1 e l2, entries = l1 ++ e :: l2 /\ e.(date) = d /\
                  forall s, In s l1 -> s.(date) <> d.
Proof.
  destruct (JS.findIndex (fun s => String.eqb s.(date) d) entries) as [i|] eqn:E.
  - right. apply findIndex_split in E as (l1 & e & l2 & -> & _ & He & Hl1).
    exists l1, e, l2. split; [reflexivity|].
    split; [apply String.eqb_eq; assumption|].
    intros s Hs. apply String.eqb_neq. apply Hl1. assumption.
  - left. intros s Hs. apply String.eqb_neq.
    apply (proj1 (findIndex_none _ entries) E). assumption.
Qed.

End Upsert.

(** C7, as the code has it. An upsert on a date that is in the collection
    replaces the production of the first entry with that date and leaves its
    identifier, its date and every other entry as they were, drawing no
    UUID; on a date that is not in the collection it appends an entry with
    the next UUID, which no entry holds when the source never repeats
    itself and the identifiers held are earlier draws.  When the collection
    holds at most one entry for the date, two upserts in a row leave
    exactly one entry for it, with the second production and the identifier
    it had after the first. *)
Theorem upsert_replaces_or_appends :
  (forall uuid day p l1 e l2 calls,
     e.(date) = DateFns.format day ->
     (forall s, In s l1 -> s.(date) <> DateFns.format day) ->
     onSubmit uuid (Some day) p (l1 ++ e :: l2) calls
     = (Eff.Returned (l1 ++ mkEntry e.(date) p e.(id) :: l2), calls)) /\
  (forall uuid day p entries calls,
     (forall s, In s entries -> s.(date) <> DateFns.format day) ->
     onSubmit uuid (Some day) p entries calls
     = (Eff.Returned
          (entries ++ [mkEntry (DateFns.format day) p (uuid calls)]),
        S calls)) /\
  (forall uuid day p entries calls,
     (forall j k, uuid j = uuid k -> j = k) ->
     (forall s, In s entries -> exists k, (k < calls)%nat /\ s.(id) = uuid k) ->
     (forall s, In s entries -> s.(date) <> DateFns.format day) ->
     exists e,
       onSubmit uuid (Some day) p entries calls
         = (Eff.Returned (entries ++ [e]), S calls) /\
       e.(date) = DateFns.format day /\ e.(production) = p /\
       forall s, In s entries -> s.(id) <> e.(id)) /\
  (forall uuid day p1 p2 entries calls,
     (Spec.entriesFor (DateFns.format day) entries <= 1)%nat ->
     exists l1 e1 l2 calls1,
       onSubmit uuid (Some day) p1 entries calls
         = (Eff.Returned (l1 ++ e1 :: l2), calls1) /\
       e1.(date) = DateFns.format day /\ e1.(production) = p1 /\
       onSubmit uuid (Some day) p2 (l1 ++ e1 :: l2) calls1
         = (Eff.Returned (l1 ++ mkEntry e1.(date) p2 e1.(id) :: l2), calls1) /\
       (forall s, In s (l1 ++ l2) -> s.(date) <> DateFns.format day) /\
       Spec.entriesFor (DateFns.format day)
         (l1 ++ mkEntry e1.(date) p2 e1.(id) :: l2) = 1%nat).
Proof.
  split; [|split; [|split]].
  - intros. apply onSubmit_existing; assumption.
  - intros. apply onSubmit_new; assumption.
  - intros uuid day p entries calls Hinj Hold Hno.
    exists (mkEntry (DateFns.format day) p (uuid calls)).
    split; [apply onSubmit_new; assumption|].
    split; [reflexivity|]. split; [reflexivity|].
    intros s Hs Heq. cbn [id] in Heq.
    destruct (Hold s Hs) as (k & Hk & Hid). rewrite Hid in Heq.
    apply Hinj in Heq. lia.
  - intros uuid day p1 p2 entries calls Hone.
    set (d := DateFns.format day) in *.
    assert (Hcount : forall l1 (e : SolarEntry) l2,
      e.(date) = d -> (forall s, In s (l1 ++ l2) -> s.(date) <> d) ->
      Spec.entriesFor d (l1 ++ e :: l2) = 1%nat).
    { intros l1 e l2 He Hno.
      rewrite entriesFor_app.
      change (e :: l2) with ([e] ++ l2). rewrite entriesFor_app.
      rewrite (proj2 (entriesFor_zero d l1)), (proj2 (entriesFor_zero d l2)).
      - unfold Spec.entriesFor. cbn [filter].
        rewrite (proj2 (String.eqb_eq _ _) He). reflexivity.
      - intros s Hs. apply Hno. apply in_or_app. right. assumption.
      - intros s Hs. apply Hno. apply in_or_app. left. assumption. }
    destruct (entries_split d entries) as [Hno|(l1 & e & l2 & -> & He & Hl1)].
    + exists entries, (mkEntry d p1 (uuid calls)), [], (S calls).
      split; [apply onSubmit_new; assumption|].
      split; [reflexivity|]. split; [reflexivity|].
      split; [apply (onSubmit_existing uuid day p2 entries
                       (mkEntry d p1 (uuid calls)) [] (S calls) eq_refl Hno)|].
      rewrite app_nil_r. split; [assumption|].
      apply Hcount; [reflexivity|]. rewrite app_nil_r. assumption.
    + assert (Hl2 : forall s, In s l2 -> s.(date) <> d).
      { apply entriesFor_zero.
        rewrite entriesFor_app in Hone.
        change (e :: l2) with ([e] ++ l2) in Hone.
        rewrite entriesFor_app in Hone.
        assert (He1 : Spec.entriesFor d [e] = 1%nat).
        { unfold Spec.entriesFor. cbn [filter].
          rewrite (proj2 (String.eqb_eq _ _) He). reflexivity. }
        lia. }
      assert (Hno : forall s, In s (l1 ++ l2) -> s.(date) <> d).
      { intros s Hs. apply in_app_or in Hs as [Hs|Hs]; auto. }
      exists l1, (mkEntry e.(date) p1 e.(id)), l2, calls.
      split; [apply onSubmit_existing; assumption|].
      split; [exact He|]. split; [reflexivity|].
      split; [apply (onSubmit_existing uuid day p2 l1
                       (mkEntry e.(date) p1 e.(id)) l2 calls He Hl1)|].
      split; [assumption|].
      apply Hcount; [exact He|assumption].
Qed.

Lemma upsert_replaces_or_appends_witness :
  (Spec.entriesFor (DateFns.format Sample.monday) Sample.monWed <= 1)%nat /\
  exists l1 e1 l2 calls1,
    onSubmit Sample.uuid (Some Sample.monday) 1 Sample.monWed 0%nat
      = (Eff.Returned (l1 ++ e1 :: l2), calls1) /\
    e1.(date) = DateFns.format Sample.monday /\ e1.(production) = 1%Q /\
    onSubmit Sample.uuid (Some Sample.monday) 2 (l1 ++ e1 :: l2) calls1
      = (Eff.Returned (l1 ++ mkEntry e1.(date) 2 e1.(id) :: l2), calls1) /\
    (forall s, In s (l1 ++ l2) -> s.(date) <> DateFns.format Sample.monday) /\
    Spec.entriesFor (DateFns.format Sample.monday)
      (l1 ++ mkEntry e1.(date) 2 e1.(id) :: l2) = 1%nat.
Proof.
  assert (H : (Spec.entriesFor (DateFns.format Sample.monday) Sample.monWed
               <= 1)%nat).
  { vm_compute. apply le_n. }
  split; [exact H|].
  exact (proj2 (proj2 (proj2 upsert_replaces_or_appends))
           Sample.uuid Sample.monday 1%Q 2%Q Sample.monWed 0%nat H).
Defined.

(* ================================================================== *)
(** ** The entry store: remove *)

Lemma remove_absent (x : SolarEntry) (entries : list SolarEntry) :
  (forall s, In s entries -> s.(id) <> x.(id)) ->
  confirmDelete (Some x) entries = entries.
Proof.
  intros H. cbn [confirmDelete]. induction entries as [|e entries IH];
    cbn [filter]; [reflexivity|].
  rewrite (proj2 (String.eqb_neq _ _) (H e (or_introl eq_refl))).
  cbn [negb]. rewrite IH; [reflexivity|].
  intros s Hs. apply H. right. assumption.
Qed.

(** C10. [remove] keeps exactly the entries with another identifier, in
    their order: it deletes the entry with the identifier when there is
    one, changes nothing when there is none, and does nothing without an
    entry to delete. *)
Theorem remove_deletes_only_that_id :
  (forall x entries e,
     In e (confirmDelete (Some x) entries) <->
     In e entries /\ e.(id) <> x.(id)) /\
  (forall x l1 e l2,
     e.(id) = x.(id) ->
     (forall s, In s (l1 ++ l2) -> s.(id) <> x.(id)) ->
     confirmDelete (Some x) (l1 ++ e :: l2) = l1 ++ l2) /\
  (forall x entries,
     (forall s, In s entries -> s.(id) <> x.(id)) ->
     confirmDelete (Some x) entries = entries) /\
  (forall x l1 l2,
     confirmDelete (Some x) (l1 ++ l2)
     = confirmDelete (Some x) l1 ++ confirmDelete (Some x) l2) /\
  (forall entries, confirmDelete None entries = entries).
Proof.
  split; [|split; [|split; [|split]]].
  - intros x entries e. cbn [confirmDelete]. rewrite filter_In.
    rewrite negb_true_iff, String.eqb_neq. reflexivity.
  - intros x l1 e l2 He Hno.
    change (confirmDelete (Some x) (l1 ++ e :: l2))
      with (filter (fun s => negb (String.eqb s.(id) x.(id))) (l1 ++ e :: l2)).
    rewrite filter_app. cbn [filter].
    rewrite (proj2 (String.eqb_eq _ _) He). cbn [negb].
    rewrite <- filter_app.
    exact (remove_absent x (l1 ++ l2) Hno).
  - exact remove_absent.
  - intros x l1 l2. cbn [confirmDelete]. apply filter_app.
  - reflexivity.
Qed.

Lemma remove_deletes_only_that_id_witness :
  (forall s, In s Sample.monWed -> s.(id) <> "zz"%string) /\
  confirmDelete (Some (mkEntry "2024-01-09" 1 "zz")) Sample.monWed
  = Sample.monWed.
Proof.
  assert (H : forall s, In s Sample.monWed -> s.(id) <> "zz"%string).
  { intros s [<-|[<-|[]]]; discriminate. }
  split; [exact H|].
  exact (proj1 (proj2 (proj2 remove_deletes_only_that_id))
           (mkEntry "2024-01-09" 1 "zz") Sample.monWed H).
Defined.

(* ================================================================== *)
(** ** The entry store: load *)

Lemma Forall2_right {A B : Type} (R : A -> B -> Prop) (l : list A)
    (ys : list B) :
  Forall2 R l ys -> forall y, In y ys -> exists x, In x l /\ R x y.
Proof.
  induction 1 as [|x y l ys Hxy _ IH]; intros z Hz; [contradiction|].
  destruct Hz as [<-|Hz].
  - exists x. split; [left; reflexivity|assumption].
  - destruct (IH z Hz) as (x' & Hin & Hr). exists x'.
    split; [right; assumption|assumption].
Qed.

Section Load.
Variable uuid : nat -> string.
Variable JSON_parse : string -> Eff.outcome JSONValue.
Hypothesis uuid_nonempty : forall k, uuid k <> EmptyString.

Lemma loadedFrom_wider lo hi lo' hi' element e :
  (lo' <= lo)%nat -> (hi <= hi')%nat ->
  loadedFrom uuid lo hi element e -> loadedFrom uuid lo' hi' element e.
Proof.
  intros Hlo Hhi. destruct element as [|stored]; cbn [loadedFrom]; [trivial|].
  intros (Hd & Hp & Hi). split; [assumption|]. split; [assumption|].
  destruct (stored_id stored) as [i|].
  - destruct (String.eqb i EmptyString); [|assumption].
    destruct Hi as (k & Hk & Hid). exists k. split; [lia|assumption].
  - destruct Hi as (k & Hk & Hid). exists k. split; [lia|assumption].
Qed.

Lemma withId_loaded element calls e calls' :
  withId uuid element calls = (Eff.Returned e, calls') ->
  (calls <= calls')%nat /\
  loadedFrom uuid calls calls' element e /\ e.(id) <> EmptyString.
Proof.
  destruct element as [|stored]; cbn [withId loadedFrom];
    [discriminate|].
  destruct (stored_id stored) as [i|].
  - unfold JS.truthy. destruct (String.eqb i EmptyString) eqn:Ei; cbn [negb].
    + intros [= <- <-]. cbn [date production id].
      split; [lia|]. split; [|apply uuid_nonempty]. repeat split.
      exists calls. split; [lia|reflexivity].
    + intros [= <- <-]. cbn [date production id].
      split; [lia|]. split; [repeat split|].
      apply String.eqb_neq. assumption.
  - intros [= <- <-]. cbn [date production id].
    split; [lia|]. split; [|apply uuid_nonempty]. repeat split.
    exists calls. split; [lia|reflexivity].
Qed.

(** What the loader's [map] returns, element by element. *)
Lemma withId_all elements : forall calls loaded calls',
  Eff.Array_map (withId uuid) elements calls = (Eff.Returned loaded, calls') ->
  (calls <= calls')%nat /\
  Forall2 (fun element e =>
             loadedFrom uuid calls calls' element e /\ e.(id) <> EmptyString)
          elements loaded.
Proof.
  induction elements as [|element elements IH]; intros calls loaded calls';
    cbn [Eff.Array_map].
  - intros [= <- <-]. split; [lia|constructor].
  - unfold Eff.bind at 1.
    destruct (withId uuid element calls) as [[e|] c1] eqn:Ee; [|discriminate].
    unfold Eff.bind.
    destruct (Eff.Array_map (withId uuid) elements c1) as [[l|] c2] eqn:El;
      [|discriminate].
    intros [= <- <-].
    destruct (withId_loaded _ _ _ _ Ee) as (Hc1 & He & Hid).
    destruct (IH _ _ _ El) as (Hc2 & Hall).
    split; [lia|]. constructor.
    + split; [|assumption].
      apply (loadedFrom_wider calls c1); [lia|lia|assumption].
    + revert Hall. apply Forall2_impl. intros element' e' [H' Hid'].
      split; [|assumption].
      apply (loadedFrom_wider c1 c2); [lia|lia|assumption].
Qed.

(** The loader returns: the current entries when nothing usable is saved,
    and the mapped array otherwise. *)
Lemma load_cases savedEntries entries calls :
  (exists calls',
     load uuid JSON_parse savedEntries entries calls
     = (Eff.Returned entries, calls')) \/
  (exists s elements loaded calls',
     savedEntries = Some s /\ s <> EmptyString /\
     JSON_parse s = Eff.Returned (JSONArray elements) /\
     Eff.Array_map (withId uuid) elements calls = (Eff.Returned loaded, calls') /\
     load uuid JSON_parse savedEntries entries calls
     = (Eff.Returned loaded, calls')).
Proof.
  unfold load, Eff.tryCatch.
  destruct savedEntries as [s|]; [|left; eexists; reflexivity].
  unfold JS.truthy. destruct (String.eqb s EmptyString) eqn:Es; cbn [negb];
    [left; eexists; reflexivity|].
  unfold Eff.bind at 1.
  destruct (JSON_parse s) as [[elements|]|] eqn:Ep;
    [|left; eexists; reflexivity|left; eexists; reflexivity].
  unfold Eff.bind.
  destruct (Eff.Array_map (withId uuid) elements calls) as [[loaded|] c1] eqn:Em;
    [|left; eexists; reflexivity].
  right. exists s, elements, loaded, c1.
  split; [reflexivity|]. split; [apply String.eqb_neq; assumption|].
  split; [exact Ep|]. split; [exact Em|]. reflexivity.
Qed.

Lemma withId_objects elements calls :
  ~ In JSONNull elements ->
  exists loaded calls',
    Eff.Array_map (withId uuid) elements calls = (Eff.Returned loaded, calls').
Proof.
  revert calls. induction elements as [|element elements IH]; intros calls Hno.
  - eexists _, _. reflexivity.
  - assert (He : exists e c1, withId uuid element calls = (Eff.Returned e, c1)).
    { destruct element as [|stored];
        [exfalso; apply Hno; left; reflexivity|].
      cbn [withId]. destruct (stored_id stored) as [i|];
        [destruct (JS.truthy i)|]; eexists _, _; reflexivity. }
    destruct He as (e & c1 & Ee).
    destruct (IH c1) as (loaded & c2 & El).
    { intros Hin. apply Hno. right. assumption. }
    exists (e :: loaded), c2. cbn [Eff.Array_map].
    unfold Eff.bind at 1. rewrite Ee. unfold Eff.bind. rewrite El.
    reflexivity.
Qed.

Lemma withId_null elements : forall calls,
  In JSONNull elements ->
  exists calls', Eff.Array_map (withId uuid) elements calls = (Eff.Thrown, calls').
Proof.
  induction elements as [|element elements IH]; intros calls Hin;
    [contradiction|].
  cbn [Eff.Array_map]. unfold Eff.bind at 1.
  destruct (withId uuid element calls) as [[e|] c1] eqn:Ee;
    [|eexists; reflexivity].
  destruct Hin as [->|Hin]; [discriminate|].
  destruct (IH c1 Hin) as [c2 E]. unfold Eff.bind. rewrite E.
  eexists. reflexivity.
Qed.

Lemma load_parsed s elements entries calls :
  s <> EmptyString -> JSON_parse s = Eff.Returned (JSONArray elements) ->
  load uuid JSON_parse (Some s) entries calls
  = match Eff.Array_map (withId uuid) elements calls with
    | (Eff.Returned loaded, calls') => (Eff.Returned loaded, calls')
    | (Eff.Thrown, calls') => (Eff.Returned entries, calls')
    end.
Proof.
  intros Hs Ep. unfold load, Eff.tryCatch, JS.truthy.
  rewrite (proj2 (String.eqb_neq _ _) Hs). cbn [negb].
  unfold Eff.bind at 1. rewrite Ep. unfold Eff.bind.
  destruct (Eff.Array_map (withId uuid) elements calls) as [[loaded|] c1];
    reflexivity.
Qed.

End Load.

(** C9. The loader never fails: from the empty state it gives back an
    entry collection, which is empty when nothing (or the empty text) is
    saved, when the saved text does not parse and when it parses to
    something that is not an array of objects; every entry of it has a
    non-empty identifier; and when the saved text parses to an array of
    entry objects, each entry comes from the element at its place, with the
    stored date and production, the stored identifier when that is there
    and not empty, and otherwise a UUID generated by one of the calls made
    during this load. *)
Theorem load_recovers_and_assigns_ids :
  forall (uuid : nat -> string) (JSON_parse : string -> Eff.outcome JSONValue),
    (forall k, uuid k <> EmptyString) ->
    forall savedEntries calls,
    exists entries calls',
      load uuid JSON_parse savedEntries [] calls
        = (Eff.Returned entries, calls') /\
      (savedEntries = None -> entries = []) /\
      (savedEntries = Some EmptyString -> entries = []) /\
      (forall s, savedEntries = Some s -> JSON_parse s = Eff.Thrown ->
                 entries = []) /\
      (forall s, savedEntries = Some s ->
                 JSON_parse s = Eff.Returned JSONOther -> entries = []) /\
      (forall s elements,
         savedEntries = Some s ->
         JSON_parse s = Eff.Returned (JSONArray elements) ->
         In JSONNull elements -> entries = []) /\
      (forall e, In e entries -> e.(id) <> EmptyString) /\
      (forall s elements,
         savedEntries = Some s -> s <> EmptyString ->
         JSON_parse s = Eff.Returned (JSONArray elements) ->
         ~ In JSONNull elements ->
         Forall2 (loadedFrom uuid calls calls') elements entries).
Proof.
  intros uuid JSON_parse Huuid savedEntries calls.
  destruct (load_cases uuid JSON_parse savedEntries [] calls)
    as [[calls' E]|(s & elements & loaded & calls' & -> & Hs & Ep & Em & E)].
  - exists [], calls'. split; [exact E|].
    split; [reflexivity|]. split; [reflexivity|]. split; [reflexivity|].
    split; [reflexivity|]. split; [reflexivity|]. split; [intros e []|].
    intros s elements -> Hs Ep Hno.
    rewrite (load_parsed uuid JSON_parse s elements [] calls Hs Ep) in E.
    destruct (withId_objects uuid elements calls Hno) as (loaded & c1 & Em).
    rewrite Em in E. injection E as -> <-.
    destruct (withId_all uuid Huuid _ _ _ _ Em) as [_ Hall].
    revert Hall. apply Forall2_impl. intros element e [H _]. exact H.
  - exists loaded, calls'. split; [exact E|].
    destruct (withId_all uuid Huuid _ _ _ _ Em) as [_ Hall].
    split; [discriminate|].
    split; [intros [= ->]; contradiction|].
    split; [intros s' [= <-] Hthrown; congruence|].
    split; [intros s' [= <-] Hother; congruence|].
    split.
    { intros s' elements' [= <-] Ep' Hnull.
      assert (elements' = elements) as -> by congruence.
      destruct (withId_null uuid elements calls Hnull) as [c E'].
      congruence. }
    split.
    + intros e He.
      destruct (Forall2_right _ _ _ Hall e He) as (element & _ & _ & Hid).
      exact Hid.
    + intros s' elements' [= <-] _ Ep' _.
      assert (elements' = elements) as -> by congruence.
      revert Hall. apply Forall2_impl. intros element e [H _]. exact H.
Qed.

Lemma load_recovers_and_assigns_ids_witness :
  (forall k, Sample.uuid k <> EmptyString) /\
  exists entries calls',
    load Sample.uuid Sample.JSON_parse (Some Sample.saved) [] 0%nat
      = (Eff.Returned entries, calls') /\
    (forall e, In e entries -> e.(id) <> EmptyString) /\
    Forall2 (loadedFrom Sample.uuid 0 calls') Sample.savedElements entries.
Proof.
  assert (H : forall k, Sample.uuid k <> EmptyString).
  { intros k. unfold Sample.uuid. cbn [String.append]. discriminate. }
  split; [exact H|].
  destruct (load_recovers_and_assigns_ids Sample.uuid Sample.JSON_parse H
              (Some Sample.saved) 0%nat)
    as (entries & calls' & E & _ & _ & _ & _ & _ & Hid & Hloaded).
  exists entries, calls'. split; [exact E|]. split; [exact Hid|].
  apply (Hloaded Sample.saved Sample.savedElements eq_refl).
  - discriminate.
  - reflexivity.
  - intros [Hn|[Hn|[]]]; discriminate.
Defined.

(* ================================================================== *)
(** ** One entry per date *)

Lemma NoDup_snoc {A : Type} (l : list A) (x : A) :
  NoDup l -> ~ In x l -> NoDup (l ++ [x]).
Proof.
  induction 1 as [|y l Hy _ IH]; intros Hx; cbn [app].
  - constructor; [intros []|constructor].
  - constructor.
    + intros Hin. apply in_app_or in Hin as [Hin|[<-|[]]];
        [contradiction|]. apply Hx. left. reflexivity.
    + apply IH. intros Hin. apply Hx. right. assumption.
Qed.

Lemma distinctDates_filter (keep : SolarEntry -> bool)
    (entries : list SolarEntry) :
  Spec.distinctDates entries -> Spec.distinctDates (filter keep entries).
Proof.
  unfold Spec.distinctDates.
  induction entries as [|e entries IH]; cbn [map filter]; [trivial|].
  intros H. inversion H as [|? ? He Hrest]; subst.
  destruct (keep e); cbn [map]; [|apply IH; assumption].
  constructor; [|apply IH; assumption].
  intros Hin. apply He. apply in_map_iff in Hin as (s & Hs & Hin).
  apply filter_In in Hin as [Hin _]. rewrite <- Hs. apply in_map. assumption.
Qed.

Section Invariant.
Variable uuid : nat -> string.
Variable JSON_parse : string -> Eff.outcome JSONValue.

Lemma render_entries st :
  State.entries (render uuid st) = State.entries st.
Proof.
  unfold render.
  destruct (getCurrentWeekEntries uuid (State.date st) (State.entries st)
              (State.calls st)) as [[week|] calls']; reflexivity.
Qed.

Lemma onSubmit_distinct selectedDate p entries calls :
  Spec.distinctDates entries ->
  exists entries' calls',
    onSubmit uuid selectedDate p entries calls
      = (Eff.Returned entries', calls') /\
    Spec.distinctDates entries'.
Proof.
  intros H. destruct selectedDate as [day|];
    [|exists entries, calls; split; [reflexivity|assumption]].
  destruct (entries_split (DateFns.format day) entries)
    as [Hno|(l1 & e & l2 & -> & He & Hl1)].
  - eexists _, _. split; [apply onSubmit_new; assumption|].
    unfold Spec.distinctDates. rewrite map_app. cbn [map date].
    apply NoDup_snoc; [assumption|].
    intros Hin. apply in_map_iff in Hin as (s & Hs & Hin).
    exact (Hno s Hin Hs).
  - eexists _, _. split; [apply onSubmit_existing; assumption|].
    unfold Spec.distinctDates in *. rewrite map_app in *.
    cbn [map date] in *. assumption.
Qed.

Lemma loaded_dates elements : forall calls loaded calls',
  Eff.Array_map (withId uuid) elements calls = (Eff.Returned loaded, calls') ->
  map date loaded = storedDates elements.
Proof.
  induction elements as [|element elements IH]; intros calls loaded calls';
    cbn [Eff.Array_map storedDates].
  - intros [= <- _]. reflexivity.
  - unfold Eff.bind at 1.
    destruct (withId uuid element calls) as [[e|] c1] eqn:Ee; [|discriminate].
    unfold Eff.bind.
    destruct (Eff.Array_map (withId uuid) elements c1) as [[l|] c2] eqn:El;
      [|discriminate].
    intros [= <- _]. cbn [map]. rewrite (IH _ _ _ El).
    destruct element as [|stored]; [discriminate|].
    cbn [withId] in Ee.
    destruct (stored_id stored) as [i|]; [destruct (JS.truthy i)|];
      injection Ee as <- _; reflexivity.
Qed.

Lemma mount_distinct today savedEntries :
  storedDistinct JSON_parse savedEntries ->
  Spec.distinctDates (State.entries (mount uuid JSON_parse today savedEntries)).
Proof.
  intros Hstored. unfold mount.
  destruct (load_cases uuid JSON_parse savedEntries [] O)
    as [[calls' E]|(s & elements & loaded & calls' & -> & Hs & Ep & Em & E)];
    rewrite E, render_entries; cbn [State.entries].
  - constructor.
  - unfold Spec.distinctDates. rewrite (loaded_dates _ _ _ _ Em).
    exact (Hstored s elements eq_refl Ep).
Qed.

Lemma perform_distinct a st :
  guarded a st ->
  Spec.distinctDates (State.entries st) ->
  Spec.distinctDates (State.entries (perform uuid a st)).
Proof.
  intros Hg H. destruct a as [newDate|p|entry| | |i|i]; cbn [perform].
  - destruct newDate; exact H.
  - unfold submit.
    destruct (onSubmit_distinct (State.date st) p (State.entries st)
                (State.calls st) H) as (entries' & calls' & E & H').
    rewrite E. exact H'.
  - exact H.
  - exact H.
  - unfold confirm. destruct (State.entryToDelete st) as [deleted|];
      [|exact H].
    cbn [State.entries confirmDelete]. apply distinctDates_filter. exact H.
  - unfold clickUndo.
    destruct (nth_error (State.undoToasts st) i) as [deleted|] eqn:E;
      [|exact H].
    cbn [State.entries]. unfold undo, Spec.distinctDates.
    rewrite map_app. cbn [map]. apply NoDup_snoc; [exact H|].
    exact (Hg deleted E).
  - exact H.
Qed.

Lemma reachable_run actions : forall st,
  reachable uuid JSON_parse st -> allEnabled uuid actions st ->
  reachable uuid JSON_parse (run uuid actions st).
Proof.
  induction actions as [|a actions IH]; intros st Hst Hen; cbn [run];
    [assumption|].
  destruct Hen as [Ha Hrest]. apply IH; [|assumption].
  apply when_step; [assumption|assumption|exact I].
Qed.

End Invariant.

Lemma undoRace_reachable :
  reachable Sample.uuid Sample.JSON_parse
    (run Sample.uuid Sample.undoRace Sample.mounted).
Proof.
  apply reachable_run; [apply when_mount; exact I|].
  cbn [allEnabled Sample.undoRace enabled].
  split; [split; discriminate|].
  split; [split; [vm_compute; auto 10|reflexivity]|].
  split; [reflexivity|].
  split; [split; discriminate|].
  split; [vm_compute; apply le_n|]. exact I.
Qed.

(** C6 fails as stated: saving 5 for a day, deleting that entry, saving 3
    for the same day and then clicking [Undo] leaves two entries with that
    date. *)
Lemma undo_after_upsert_duplicates_a_date :
  reachable Sample.uuid Sample.JSON_parse
    (run Sample.uuid Sample.undoRace Sample.mounted) /\
  State.entries (run Sample.uuid Sample.undoRace Sample.mounted)
  = [mkEntry "2024-01-08" 3 "uuid-27"; mkEntry "2024-01-08" 5 "uuid-7"] /\
  ~ Spec.distinctDates
      (State.entries (run Sample.uuid Sample.undoRace Sample.mounted)).
Proof.
  assert (E : State.entries (run Sample.uuid Sample.undoRace Sample.mounted)
    = [mkEntry "2024-01-08" 3 "uuid-27"; mkEntry "2024-01-08" 5 "uuid-7"]).
  { vm_compute. reflexivity. }
  split; [exact undoRace_reachable|]. split; [exact E|].
  rewrite E. unfold Spec.distinctDates. cbn [map date].
  intros H. inversion H as [|? ? Hin _]; subst.
  apply Hin. left. reflexivity.
Qed.

(** C6, as the code has it. From saved data with at most one entry per
    date, every state reached by loading and by any sequence of the user's
    actions holds at most one entry per date, as long as each [Undo] is
    clicked while no entry with the deleted entry's date is in the
    collection. *)
Theorem distinct_dates_under_guarded_undo :
  forall uuid JSON_parse st,
    reachableGuarded uuid JSON_parse st ->
    Spec.distinctDates (State.entries st).
Proof.
  intros uuid JSON_parse st H.
  induction H as [today savedEntries Hstored|a st Hst IH Hen Hg].
  - apply mount_distinct. assumption.
  - rewrite render_entries. apply perform_distinct; assumption.
Qed.

Lemma distinct_dates_under_guarded_undo_witness :
  reachableGuarded Sample.uuid Sample.JSON_parse
    (render Sample.uuid
       (perform Sample.uuid (Submit 7)
          (mount Sample.uuid Sample.JSON_parse Sample.monday
                 (Some Sample.saved)))) /\
  Spec.distinctDates
    (State.entries
       (render Sample.uuid
          (perform Sample.uuid (Submit 7)
             (mount Sample.uuid Sample.JSON_parse Sample.monday
                    (Some Sample.saved))))).
Proof.
  assert (H : reachableGuarded Sample.uuid Sample.JSON_parse
    (render Sample.uuid
       (perform Sample.uuid (Submit 7)
          (mount Sample.uuid Sample.JSON_parse Sample.monday
                 (Some Sample.saved))))).
  { apply when_step.
    - apply when_mount. intros s elements [= <-] Ep.
      vm_compute in Ep. injection Ep as <-.
      cbn [storedDates Sample.savedElements stored_date].
      repeat constructor; cbn [In]; intuition discriminate.
    - split; discriminate.
    - exact I. }
  split; [exact H|].
  exact (distinct_dates_under_guarded_undo _ _ _ H).
Defined.

Lemma upsertTwice_reachable :
  reachable Sample.uuid Sample.JSON_parse
    (run Sample.uuid Sample.upsertTwice Sample.mounted).
Proof.
  apply reachable_run; [apply when_mount; exact I|].
  cbn [allEnabled Sample.upsertTwice Sample.undoRace app enabled].
  split; [split; discriminate|].
  split; [split; [vm_compute; auto 10|reflexivity]|].
  split; [reflexivity|].
  split; [split; discriminate|].
  split; [vm_compute; apply le_n|].
  split; [split; discriminate|].
  split; [split; discriminate|]. exact I.
Qed.

(** C7 fails as stated on a collection that holds two entries for the
    date, as the one reached above: after two more upserts for that date
    the collection still holds two entries for it. *)
Lemma upsert_twice_on_a_duplicated_date :
  reachable Sample.uuid Sample.JSON_parse
    (run Sample.uuid Sample.upsertTwice Sample.mounted) /\
  State.date (run Sample.uuid Sample.upsertTwice Sample.mounted)
  = Some Sample.monday /\
  State.entries (run Sample.uuid Sample.upsertTwice Sample.mounted)
  = [mkEntry "2024-01-08" 2 "uuid-27"; mkEntry "2024-01-08" 5 "uuid-7"] /\
  Spec.entriesFor (DateFns.format Sample.monday)
    (State.entries (run Sample.uuid Sample.upsertTwice Sample.mounted))
  = 2%nat.
Proof.
  split; [exact upsertTwice_reachable|].
  split; [vm_compute; reflexivity|].
  split; vm_compute; reflexivity.
Qed.

(* ================================================================== *)
(** ** Duplicate dates in the week window *)

(** C8 fails as stated: with two stored entries for Monday, 5 first and 3
    last, Monday carries 5, the first match, and not 3, the last. *)
Lemma weekWindow_duplicate_is_not_last :
  Spec.lastEncountered "2024-01-08" Sample.twoMondays
  = Some (mkEntry "2024-01-08" 3 "b") /\
  exists e,
    nth_error
      (Eff.listOf
         (getCurrentWeekEntries Sample.uuid (Some Sample.monday)
                                Sample.twoMondays 0%nat)) 1%nat
    = Some e /\
    e.(date) = "2024-01-08"%string /\ e.(production) = 5%Q /\
    ~ (e.(production) == 3)%Q.
Proof.
  split; [vm_compute; reflexivity|].
  exists (mkEntry "2024-01-08" 5 "a").
  split; [vm_compute; reflexivity|]. split; [reflexivity|].
  split; [reflexivity|]. cbn [production]. discriminate.
Qed.

(** C8, as the code has it. When several stored entries have the date of
    a day of the window, the day carries the production of the first of
    them in iteration order, whatever follows it. *)
Theorem weekWindow_duplicate_takes_first :
  forall uuid anchor calls i l1 s l2,
    (i < 7)%nat ->
    s.(date) = DateFns.format (DateFns.startOfWeek anchor + Z.of_nat i) ->
    (forall s', In s' l1 -> s'.(date) <> s.(date)) ->
    exists week calls' e,
      getCurrentWeekEntries uuid (Some anchor) (l1 ++ s :: l2) calls
        = (Eff.Returned week, calls') /\
      nth_error week i = Some e /\
      e.(date) = s.(date) /\ e.(production) = s.(production).
Proof.
  intros uuid anchor calls i l1 s l2 Hi Hs Hl1.
  destruct (week_days uuid anchor (l1 ++ s :: l2) calls)
    as (e0 & e1 & e2 & e3 & e4 & e5 & e6 & calls' & E & H).
  assert (He : exists e, nth_error [e0; e1; e2; e3; e4; e5; e6] i = Some e).
  { do 7 (destruct i as [|i]; [eexists; reflexivity|]). lia. }
  destruct He as [e He].
  exists [e0; e1; e2; e3; e4; e5; e6], calls', e.
  split; [exact E|]. split; [exact He|].
  pose proof (H i e He) as Hc. rewrite <- Hs in Hc.
  split; [exact (proj1 Hc)|].
  exact (carries_first _ _ _ _ _ _ Hc eq_refl eq_refl Hl1).
Qed.

Lemma weekWindow_duplicate_takes_first_witness :
  exists week calls' e,
    getCurrentWeekEntries Sample.uuid (Some Sample.monday)
      ([] ++ mkEntry "2024-01-08" 5 "a" :: [mkEntry "2024-01-08" 3 "b"])
      0%nat
      = (Eff.Returned week, calls') /\
    nth_error week 1%nat = Some e /\
    e.(date) = "2024-01-08"%string /\ e.(production) = 5%Q.
Proof.
  apply (weekWindow_duplicate_takes_first Sample.uuid Sample.monday 0%nat
           1%nat [] (mkEntry "2024-01-08" 5 "a")
           [mkEntry "2024-01-08" 3 "b"]).
  - apply le_S, le_S, le_S, le_S, le_S, le_n.
  - vm_compute. reflexivity.
  - intros s' [].
Defined.


(* ================================================================== *)
(** ** Non-negative productions and the two averages *)

Section NonNegative.
Variable uuid : nat -> string.
Variable JSON_parse : string -> Eff.outcome JSONValue.





Lemma dropToast_In toasts : forall i e,
  In e (dropToast i toasts) -> In e toasts.
Proof.
  unfold dropToast. induction toasts as [|x toasts IH]; intros i e.
  - destruct i; cbn [firstn skipn app]; trivial.
  - destruct i as [|i]; cbn [firstn skipn app].
    + intros H. right. assumption.
    + intros [<-|H]; [left; reflexivity|]. right. exact (IH i e H).
Qed.





End NonNegative.





(* ================================================================== *)
(** * Further properties *)

(** ** Calendar dates of nearby days *)

Section CalendarMore.
Import DateFns CalendarCheck.








End CalendarMore.

(* ================================================================== *)
(** ** Formatted dates *)






(* ================================================================== *)
(** ** The week window, further *)

Section WindowMore.
Variable uuid : nat -> string.

Lemma dayOf_wider entries lo hi lo' hi' weekDate e :
  (lo' <= lo)%nat -> (hi <= hi')%nat ->
  dayOf uuid entries lo hi weekDate e -> dayOf uuid entries lo' hi' weekDate e.
Proof.
  intros Hlo Hhi [Hd H]. split; [assumption|].
  destruct (find _ entries) as [s|].
  - destruct H as [Hp Hi]. split; [assumption|].
    destruct (JS.truthy (id s)); [assumption|].
    destruct Hi as (k & Hk & Hid). exists k. split; [lia|assumption].
  - destruct H as [Hp (k & Hk & Hid)]. split; [assumption|].
    exists k. split; [lia|assumption].
Qed.

Lemma weekEntry_dayOf entries weekDate calls :
  exists e calls',
    weekEntry uuid entries weekDate calls = (Eff.Returned e, calls') /\
    (calls <= calls' <= S calls)%nat /\
    dayOf uuid entries calls calls' weekDate e.
Proof.
  unfold weekEntry, dayOf.
  destruct (find _ entries) as [s|].
  - destruct (JS.truthy (id s)).
    + eexists _, _. split; [reflexivity|]. split; [lia|].
      split; [reflexivity|]. split; reflexivity.
    + eexists _, _. split; [reflexivity|]. split; [lia|].
      split; [reflexivity|]. split; [reflexivity|].
      exists calls. split; [lia|reflexivity].
  - eexists _, _. split; [reflexivity|]. split; [lia|].
    split; [reflexivity|]. split; [reflexivity|].
    exists calls. split; [lia|reflexivity].
Qed.

Lemma weekEntries_dayOf entries weekDates : forall calls,
  exists week calls',
    Eff.Array_map (weekEntry uuid entries) weekDates calls
      = (Eff.Returned week, calls') /\
    (calls <= calls' <= calls + List.length weekDates)%nat /\
    Forall2 (dayOf uuid entries calls calls') weekDates week.
Proof.
  induction weekDates as [|w weekDates IH]; intros calls.
  - exists [], calls. split; [reflexivity|]. split; [cbn; lia|constructor].
  - destruct (weekEntry_dayOf entries w calls) as (e & c1 & Ee & Hc1 & He).
    destruct (IH c1) as (week & c2 & Ew & Hc2 & Hweek).
    exists (e :: week), c2. cbn [Eff.Array_map List.length].
    unfold Eff.bind at 1. rewrite Ee. unfold Eff.bind. rewrite Ew.
    split; [reflexivity|]. split; [lia|]. constructor.
    + apply (dayOf_wider entries calls c1); [lia|lia|assumption].
    + revert Hweek. apply Forall2_impl. intros w' e'.
      apply dayOf_wider; lia.
Qed.

(** The seven days of a window with their identifiers. *)
Lemma week_days_ids day entries calls :
  exists e0 e1 e2 e3 e4 e5 e6 calls',
    getCurrentWeekEntries uuid (Some day) entries calls
      = (Eff.Returned [e0; e1; e2; e3; e4; e5; e6], calls') /\
    (calls <= calls' <= calls + 7)%nat /\
    forall i e, nth_error [e0; e1; e2; e3; e4; e5; e6] i = Some e ->
      dayOf uuid entries calls calls'
        (DateFns.format (DateFns.startOfWeek day + Z.of_nat i)) e.
Proof.
  destruct (weekEntries_dayOf entries
              (Array_from 7 (fun i => DateFns.format
                 (DateFns.addDays (DateFns.startOfWeek day) i))) calls)
    as (week & calls' & E & Hc & H).
  cbv [Array_from seq map DateFns.addDays List.length] in H, Hc.
  repeat match goal with
         | H : Forall2 _ (_ :: _) _ |- _ => inversion H; subst; clear H
         | H : Forall2 _ [] _ |- _ => inversion H; subst; clear H
         end.
  do 7 eexists. exists calls'. split.
  - unfold getCurrentWeekEntries, Eff.tryCatch. cbv zeta.
    rewrite E. reflexivity.
  - split; [lia|]. intros i e Hi.
    do 7 (destruct i as [|i]; [injection Hi as <-; assumption|]).
    destruct i; discriminate.
Qed.

Lemma dayOf_production entries lo hi weekDate e :
  dayOf uuid entries lo hi weekDate e ->
  e.(production) = productionOn entries weekDate.
Proof.
  unfold dayOf, productionOn. intros [_ H].
  destruct (find _ entries); destruct H as [Hp _]; exact Hp.
Qed.

(** What a window shows at each of its seven places. *)
Lemma shownAt_window day entries calls i :
  (i < 7)%nat ->
  shownAt (windowOf uuid (Some day) entries calls) i
  = productionOn entries
      (DateFns.format (DateFns.startOfWeek day + Z.of_nat i)).
Proof.
  intros Hi. unfold windowOf, shownAt.
  destruct (week_days_ids day entries calls)
    as (e0 & e1 & e2 & e3 & e4 & e5 & e6 & calls' & E & _ & H).
  rewrite E. cbn [Eff.listOf].
  destruct (nth_error [e0; e1; e2; e3; e4; e5; e6] i) as [e|] eqn:Ei.
  - exact (dayOf_production _ _ _ _ _ (H i e Ei)).
  - exfalso. do 7 (destruct i as [|i]; [discriminate|]). lia.
Qed.

Lemma window_dates day entries calls :
  map date (windowOf uuid (Some day) entries calls)
  = map (fun i => DateFns.format (DateFns.startOfWeek day + Z.of_nat i))
        (seq 0 7).
Proof.
  unfold windowOf.
  destruct (week_days_ids day entries calls)
    as (e0 & e1 & e2 & e3 & e4 & e5 & e6 & calls' & E & _ & H).
  rewrite E. cbn [Eff.listOf map seq].
  rewrite (proj1 (H 0%nat e0 eq_refl)), (proj1 (H 1%nat e1 eq_refl)),
    (proj1 (H 2%nat e2 eq_refl)), (proj1 (H 3%nat e3 eq_refl)),
    (proj1 (H 4%nat e4 eq_refl)), (proj1 (H 5%nat e5 eq_refl)),
    (proj1 (H 6%nat e6 eq_refl)).
  reflexivity.
Qed.

End WindowMore.




Lemma startOfWeek_unique (d s : DateFns.Day) :
  DateFns.getDay s = 0 -> s <= d < s + 7 -> DateFns.startOfWeek d = s.
Proof.
  intros Hs Hd. pose proof (startOfWeek_sunday d) as H0.
  pose proof (startOfWeek_bounds d) as Hb.
  unfold DateFns.getDay in Hs, H0.
  apply Z.mod_divide in Hs; [|lia]. apply Z.mod_divide in H0; [|lia].
  destruct Hs as [a Ha]. destruct H0 as [b Hb0]. lia.
Qed.

(** The productions of a window, whatever identifiers it draws. *)
Lemma window_productions uuid day entries calls :
  map production (windowOf uuid (Some day) entries calls)
  = map (fun i => productionOn entries
                    (DateFns.format (DateFns.startOfWeek day + Z.of_nat i)))
        (seq 0 7).
Proof.
  unfold windowOf.
  destruct (week_days_ids uuid day entries calls)
    as (e0 & e1 & e2 & e3 & e4 & e5 & e6 & calls' & E & _ & H).
  rewrite E. cbn [Eff.listOf map seq].
  rewrite (dayOf_production _ _ _ _ _ _ (H 0%nat e0 eq_refl)),
    (dayOf_production _ _ _ _ _ _ (H 1%nat e1 eq_refl)),
    (dayOf_production _ _ _ _ _ _ (H 2%nat e2 eq_refl)),
    (dayOf_production _ _ _ _ _ _ (H 3%nat e3 eq_refl)),
    (dayOf_production _ _ _ _ _ _ (H 4%nat e4 eq_refl)),
    (dayOf_production _ _ _ _ _ _ (H 5%nat e5 eq_refl)),
    (dayOf_production _ _ _ _ _ _ (H 6%nat e6 eq_refl)).
  reflexivity.
Qed.

(** Two days of one week have the same window, up to the identifiers. *)
Lemma window_same_for_the_week uuid d d' entries calls calls' :
  DateFns.startOfWeek d <= d' < DateFns.startOfWeek d + 7 ->
  map date (windowOf uuid (Some d') entries calls')
  = map date (windowOf uuid (Some d) entries calls) /\
  map production (windowOf uuid (Some d') entries calls')
  = map production (windowOf uuid (Some d) entries calls).
Proof.
  intros H.
  rewrite !window_dates, !window_productions.
  rewrite (startOfWeek_unique d' (DateFns.startOfWeek d)
             (startOfWeek_sunday d) H).
  split; reflexivity.
Qed.

(** X2. Selecting another day of the week on display does not change what
    the week shows: in a zone whose offset stays the same, two selected
    dates whose local days are in one week, from its Sunday to its
    Saturday, give the same seven dates with the same productions,
    whatever the number of UUID calls made before each render.  The
    identifiers of the days without a stored entry are drawn again at
    every render and are not part of the statement. *)
Theorem weekWindow_same_for_the_week :
  forall zone z t t' uuid entries calls calls',
    JSDate.regularWeek zone z t -> JSDate.regularWeek zone z t' ->
    DateFns.startOfWeek (JSDate.localDay z t) <= JSDate.localDay z t'
      < DateFns.startOfWeek (JSDate.localDay z t) + 7 ->
    map date
      (Eff.listOf
         (InZone.getCurrentWeekEntries zone uuid (Some (JSDate.TimeValue t'))
                                       entries calls'))
    = map date
        (Eff.listOf
           (InZone.getCurrentWeekEntries zone uuid (Some (JSDate.TimeValue t))
                                         entries calls)) /\
    map production
      (Eff.listOf
         (InZone.getCurrentWeekEntries zone uuid (Some (JSDate.TimeValue t'))
                                       entries calls'))
    = map production
        (Eff.listOf
           (InZone.getCurrentWeekEntries zone uuid (Some (JSDate.TimeValue t))
                                         entries calls)).
Proof.
  intros zone z t t' uuid entries calls calls' Hreg Hreg' H.
  rewrite (week_regular zone z t Hreg), (week_regular zone z t' Hreg').
  exact (window_same_for_the_week uuid _ _ entries calls calls' H).
Qed.

Lemma weekWindow_same_for_the_week_witness :
  JSDate.regularWeek Zones.utc 0 (Sample.monday * JSDate.msPerDay) /\
  JSDate.regularWeek Zones.utc 0 (19733 * JSDate.msPerDay) /\
  map date
    (Eff.listOf
       (InZone.getCurrentWeekEntries Zones.utc Sample.uuid
          (Some (JSDate.TimeValue (19733 * JSDate.msPerDay)))
          Sample.monWed 7%nat))
  = map date
      (Eff.listOf
         (InZone.getCurrentWeekEntries Zones.utc Sample.uuid
            (Some (JSDate.TimeValue (Sample.monday * JSDate.msPerDay)))
            Sample.monWed 0%nat)).
Proof.
  assert (Hreg : JSDate.regularWeek Zones.utc 0
                   (Sample.monday * JSDate.msPerDay)).
  { apply utc_regular; vm_compute; discriminate. }
  assert (Hreg' : JSDate.regularWeek Zones.utc 0 (19733 * JSDate.msPerDay)).
  { apply utc_regular; vm_compute; discriminate. }
  split; [exact Hreg|]. split; [exact Hreg'|].
  refine (proj1 (weekWindow_same_for_the_week Zones.utc 0 _ _ Sample.uuid
                   Sample.monWed 0%nat 7%nat Hreg Hreg' _)).
  vm_compute. split; [discriminate|reflexivity].
Defined.

(* ================================================================== *)
(** ** Saving, the window and the form *)

Lemma find_over_app {A : Type} (p : A -> bool) (l1 l2 : list A) :
  find p (l1 ++ l2)
  = match find p l1 with
    | Some y => Some y
    | None => find p l2
    end.
Proof.
  induction l1 as [|x l1 IH]; cbn [app find]; [reflexivity|].
  destruct (p x); [reflexivity|exact IH].
Qed.

Section SavedAndShown.
Variable uuid : nat -> string.

Lemma productionOn_saved day p entries calls :
  productionOn (Eff.listOf (onSubmit uuid (Some day) p entries calls))
               (DateFns.format day) = p.
Proof.
  unfold productionOn.
  destruct (entries_split (DateFns.format day) entries)
    as [Hno|(l1 & e & l2 & -> & He & Hl1)].
  - rewrite onSubmit_new by assumption. cbn [Eff.listOf].
    rewrite find_over_app, find_absent.
    + cbn [find date]. rewrite String.eqb_refl. reflexivity.
    + intros y Hy. apply String.eqb_neq. apply Hno. assumption.
  - rewrite onSubmit_existing by assumption. cbn [Eff.listOf].
    rewrite find_first with (x := mkEntry e.(date) p e.(id)); [reflexivity| |].
    + intros y Hy. apply String.eqb_neq. apply Hl1. assumption.
    + cbn [date]. apply String.eqb_eq. assumption.
Qed.


End SavedAndShown.


(** X4. The form and the store agree on the selected date: the form holds
    the production of the entry a save would replace, so saving the value
    the form was filled with changes nothing and draws no UUID; the form is
    empty exactly when a save would append a new entry; and after a save
    the form holds the saved value. *)
Theorem form_follows_the_store :
  (forall uuid day entries formValue p calls,
     Form.update (Some day) entries formValue = Some p ->
     onSubmit uuid (Some day) p entries calls = (Eff.Returned entries, calls)) /\
  (forall uuid day entries formValue p calls,
     Form.update (Some day) entries formValue = None ->
     onSubmit uuid (Some day) p entries calls
     = (Eff.Returned (entries ++ [mkEntry (DateFns.format day) p (uuid calls)]),
        S calls)) /\
  (forall uuid day entries formValue p calls,
     Form.update (Some day)
       (Eff.listOf (onSubmit uuid (Some day) p entries calls)) formValue
     = Some p).
Proof.
  split; [|split].
  - intros uuid day entries formValue p calls. unfold Form.update. cbv zeta.
    destruct (find _ entries) as [e|] eqn:E; [|discriminate].
    intros [= <-]. apply find_split in E as (l1 & l2 & -> & He & Hl1).
    rewrite onSubmit_existing.
    + destruct e. reflexivity.
    + apply String.eqb_eq. assumption.
    + intros s Hs. apply String.eqb_neq. apply Hl1. assumption.
  - intros uuid day entries formValue p calls. unfold Form.update. cbv zeta.
    destruct (find _ entries) as [e|] eqn:E; [discriminate|]. intros _.
    apply onSubmit_new. intros s Hs. apply String.eqb_neq.
    exact (find_none _ _ E s Hs).
  - intros uuid day entries formValue p calls.
    pose proof (productionOn_saved uuid day p entries calls) as H.
    unfold productionOn in H. unfold Form.update. cbv zeta.
    destruct (find _ (Eff.listOf _)) as [e|] eqn:E; [rewrite H; reflexivity|].
    exfalso.
    destruct (entries_split (DateFns.format day) entries)
      as [Hno|(l1 & e & l2 & -> & He & Hl1)].
    + rewrite onSubmit_new in E by assumption. cbn [Eff.listOf] in E.
      assert (Hn := find_none _ _ E
                      (mkEntry (DateFns.format day) p (uuid calls))
                      (in_or_app _ _ _ (or_intror (in_eq _ _)))).
      cbn [date] in Hn. rewrite String.eqb_refl in Hn. discriminate.
    + rewrite onSubmit_existing in E by assumption. cbn [Eff.listOf] in E.
      assert (Hn := find_none _ _ E (mkEntry e.(date) p e.(id))
                      (in_elt _ _ _)).
      cbn [date] in Hn. rewrite (proj2 (String.eqb_eq _ _) He) in Hn.
      discriminate.
Qed.

Lemma form_follows_the_store_witness :
  Form.update (Some Sample.monday) Sample.monWed None = Some 5%Q /\
  onSubmit Sample.uuid (Some Sample.monday) 5 Sample.monWed 0%nat
  = (Eff.Returned Sample.monWed, 0%nat).
Proof.
  assert (H : Form.update (Some Sample.monday) Sample.monWed None = Some 5%Q).
  { vm_compute. reflexivity. }
  split; [exact H|].
  exact (proj1 form_follows_the_store Sample.uuid Sample.monday Sample.monWed
           None 5%Q 0%nat H).
Defined.

(* ================================================================== *)
(** ** Deleting a day and undoing it *)

Lemma keys_apart {K : Type} (f : SolarEntry -> K) (l1 : list SolarEntry)
    (e : SolarEntry) (l2 : list SolarEntry) :
  NoDup (map f (l1 ++ e :: l2)) ->
  forall s, In s (l1 ++ l2) -> f s <> f e.
Proof.
  rewrite map_app. cbn [map]. intros H s Hs Heq.
  apply NoDup_remove_2 in H. apply H. rewrite <- map_app, <- Heq.
  apply in_map. assumption.
Qed.

Lemma remove_one (e : SolarEntry) (l1 l2 : list SolarEntry) :
  (forall s, In s (l1 ++ l2) -> s.(id) <> e.(id)) ->
  confirmDelete (Some e) (l1 ++ e :: l2) = l1 ++ l2.
Proof.
  intros H.
  change (confirmDelete (Some e) (l1 ++ e :: l2))
    with (filter (fun s => negb (String.eqb s.(id) e.(id))) (l1 ++ e :: l2)).
  rewrite filter_app. cbn [filter]. rewrite String.eqb_refl. cbn [negb].
  rewrite <- filter_app. exact (remove_absent e (l1 ++ l2) H).
Qed.

Lemma productionOn_without (e : SolarEntry) (l1 l2 : list SolarEntry)
    (weekDate : string) :
  weekDate <> e.(date) ->
  productionOn (l1 ++ l2) weekDate = productionOn (l1 ++ e :: l2) weekDate.
Proof.
  intros Hw. unfold productionOn. rewrite !find_over_app.
  destruct (find _ l1); [reflexivity|]. cbn [find].
  rewrite (proj2 (String.eqb_neq (date e) weekDate)) by congruence.
  reflexivity.
Qed.


Section DeleteAndUndo.
Variable uuid : nat -> string.

(** The entry handed to [handleDeleteEntry] by a card with a delete button
    is the stored entry itself, when stored identifiers are not empty. *)
Lemma card_entry_is_stored day entries calls i e :
  idsNonEmpty entries ->
  nth_error (windowOf uuid (Some day) entries calls) i = Some e ->
  DayCards.deletable e = true ->
  (i < 7)%nat /\ In e entries /\
  e.(date) = DateFns.format (DateFns.startOfWeek day + Z.of_nat i).
Proof.
  intros Hids Hi Hdel. unfold windowOf in Hi.
  destruct (week_days_ids uuid day entries calls)
    as (e0 & e1 & e2 & e3 & e4 & e5 & e6 & calls' & E & _ & H).
  rewrite E in Hi. cbn [Eff.listOf] in Hi.
  assert (Hlt : (i < 7)%nat).
  { change 7%nat with (List.length [e0; e1; e2; e3; e4; e5; e6]).
    apply nth_error_Some. rewrite Hi. discriminate. }
  split; [assumption|].
  destruct (H i e Hi) as [Hd Hrest].
  destruct (find _ entries) as [s|] eqn:Ef.
  - destruct Hrest as [Hp Hid]. apply find_some in Ef as [Hin Hs].
    apply String.eqb_eq in Hs.
    unfold idsNonEmpty in Hids. rewrite Forall_forall in Hids.
    unfold JS.truthy in Hid.
    rewrite (proj2 (String.eqb_neq _ _) (Hids s Hin)) in Hid. cbn [negb] in Hid.
    assert (e = s) as -> by (destruct e, s; cbn in *; congruence).
    split; assumption.
  - destruct Hrest as [Hp _]. unfold DayCards.deletable in Hdel.
    rewrite Hp in Hdel. discriminate.
Qed.

End DeleteAndUndo.



(** X6. Under the same conditions, clicking [Undo] right after the deletion
    gives back the same entries, the restored one now last, still one per
    date, and the week shows on every day what it showed before the
    deletion. *)
Theorem undo_restores_the_week :
  forall uuid day entries calls calls' i e,
    Spec.distinctDates entries -> NoDup (map id entries) ->
    idsNonEmpty entries ->
    nth_error (windowOf uuid (Some day) entries calls) i = Some e ->
    DayCards.deletable e = true ->
    Permutation entries (undo e (confirmDelete (Some e) entries)) /\
    Spec.distinctDates (undo e (confirmDelete (Some e) entries)) /\
    forall j, (j < 7)%nat ->
      shownAt
        (windowOf uuid (Some day) (undo e (confirmDelete (Some e) entries))
                  calls') j
      = shownAt (windowOf uuid (Some day) entries calls) j.
Proof.
  intros uuid day entries calls calls' i e Hdates Hids Hne Hi Hdel.
  destruct (card_entry_is_stored uuid day entries calls i e Hne Hi Hdel)
    as (Hlt & Hin & Hd).
  apply in_split in Hin as (l1 & l2 & ->).
  rewrite (remove_one e l1 l2 (keys_apart id l1 e l2 Hids)).
  pose proof (keys_apart date l1 e l2 Hdates) as Hother.
  unfold undo.
  assert (Hperm : Permutation (l1 ++ e :: l2) ((l1 ++ l2) ++ [e])).
  { rewrite <- app_assoc. apply Permutation_app_head.
    apply Permutation_cons_append. }
  split; [exact Hperm|]. split.
  - unfold Spec.distinctDates in *.
    apply (Permutation_NoDup (l := map date (l1 ++ e :: l2)));
      [apply Permutation_map; exact Hperm|assumption].
  - intros j Hj. rewrite !shownAt_window by assumption.
    set (w := DateFns.format (DateFns.startOfWeek day + Z.of_nat j)).
    unfold productionOn. rewrite find_over_app.
    destruct (string_dec w (date e)) as [Hw|Hw].
    + rewrite find_absent.
      * rewrite find_first with (x := e); [| |apply String.eqb_eq; congruence].
        -- cbn [find]. rewrite (proj2 (String.eqb_eq _ _)) by congruence.
           reflexivity.
        -- intros y Hy. apply String.eqb_neq. rewrite Hw. apply Hother.
           apply in_or_app. left. assumption.
      * intros y Hy. apply String.eqb_neq. rewrite Hw. apply Hother.
        assumption.
    + fold (productionOn (l1 ++ e :: l2) w).
      rewrite <- (productionOn_without e l1 l2 w Hw). unfold productionOn.
      destruct (find _ (l1 ++ l2)); [reflexivity|]. cbn [find].
      rewrite (proj2 (String.eqb_neq (date e) w)) by congruence. reflexivity.
Qed.

Lemma undo_restores_the_week_witness :
  Spec.distinctDates Sample.monWed /\ NoDup (map id Sample.monWed) /\
  idsNonEmpty Sample.monWed /\
  Permutation Sample.monWed
    (undo (mkEntry "2024-01-08" 5 "a")
       (confirmDelete (Some (mkEntry "2024-01-08" 5 "a")) Sample.monWed)).
Proof.
  assert (H1 : Spec.distinctDates Sample.monWed).
  { unfold Spec.distinctDates. cbn.
    repeat constructor; cbn [In]; intuition discriminate. }
  assert (H2 : NoDup (map id Sample.monWed)).
  { cbn. repeat constructor; cbn [In]; intuition discriminate. }
  assert (H3 : idsNonEmpty Sample.monWed).
  { repeat constructor; discriminate. }
  assert (H4 : nth_error
                 (windowOf Sample.uuid (Some Sample.monday) Sample.monWed 0) 1
               = Some (mkEntry "2024-01-08" 5 "a")).
  { vm_compute. reflexivity. }
  split; [exact H1|]. split; [exact H2|]. split; [exact H3|].
  exact (proj1 (undo_restores_the_week Sample.uuid Sample.monday Sample.monWed
                  0%nat 0%nat 1%nat _ H1 H2 H3 H4 eq_refl)).
Defined.

(* ================================================================== *)
(** ** Identifiers *)

(** X7. The identifiers of a week window: a day with a stored entry keeps
    that entry's identifier when it is not empty, and every other day gets
    the UUID of a call made while the window is computed, which makes at
    most seven calls. *)
Theorem weekWindow_identifiers :
  forall uuid anchor entries calls,
  exists week calls',
    getCurrentWeekEntries uuid (Some anchor) entries calls
      = (Eff.Returned week, calls') /\
    (calls <= calls' <= calls + 7)%nat /\
    forall i e, nth_error week i = Some e ->
      dayOf uuid entries calls calls'
        (DateFns.format (DateFns.startOfWeek anchor + Z.of_nat i)) e.
Proof.
  intros uuid anchor entries calls.
  destruct (week_days_ids uuid anchor entries calls)
    as (e0 & e1 & e2 & e3 & e4 & e5 & e6 & calls' & E & Hc & H).
  exists [e0; e1; e2; e3; e4; e5; e6], calls'. auto.
Qed.

Section Identifiers.
Variable uuid : nat -> string.
Variable JSON_parse : string -> Eff.outcome JSONValue.
Hypothesis uuid_nonempty : forall k, uuid k <> EmptyString.

Lemma week_idsNonEmpty selectedDate entries calls week calls' :
  getCurrentWeekEntries uuid selectedDate entries calls
    = (Eff.Returned week, calls') ->
  idsNonEmpty week.
Proof.
  intros E. destruct selectedDate as [day|].
  - destruct (week_days_ids uuid day entries calls)
      as (e0 & e1 & e2 & e3 & e4 & e5 & e6 & c & E' & _ & H).
    rewrite E' in E. injection E as <- _.
    apply Forall_forall. intros e He.
    apply In_nth_error in He as [i Hi].
    destruct (H i e Hi) as [_ Hrest].
    destruct (find _ entries) as [s|].
    + destruct Hrest as [_ Hid]. unfold JS.truthy in Hid.
      destruct (String.eqb (id s) EmptyString) eqn:Es; cbn [negb] in Hid.
      * destruct Hid as (k & _ & ->). apply uuid_nonempty.
      * rewrite Hid. apply String.eqb_neq. assumption.
    + destruct Hrest as [_ (k & _ & ->)]. apply uuid_nonempty.
  - cbn in E. injection E as <- _. constructor.
Qed.

Lemma onSubmit_idsNonEmpty selectedDate p entries calls entries' calls' :
  idsNonEmpty entries ->
  onSubmit uuid selectedDate p entries calls = (Eff.Returned entries', calls') ->
  idsNonEmpty entries'.
Proof.
  intros H. destruct selectedDate as [day|];
    [|cbn; intros [= <- _]; assumption].
  destruct (entries_split (DateFns.format day) entries)
    as [Hno|(l1 & e & l2 & -> & He & Hl1)].
  - rewrite onSubmit_new by assumption. intros [= <- _].
    apply Forall_app. split; [assumption|].
    constructor; [apply uuid_nonempty|constructor].
  - rewrite onSubmit_existing by assumption. intros [= <- _].
    apply Forall_app in H as [H1 H2]. inversion H2; subst.
    apply Forall_app. split; [assumption|]. constructor; assumption.
Qed.

Lemma render_idsNonEmpty st :
  idsNonEmpty (State.entries st) -> idsNonEmpty (State.undoToasts st) ->
  match State.entryToDelete st with
  | Some e => e.(id) <> EmptyString
  | None => True
  end ->
  stateIdsNonEmpty (render uuid st).
Proof.
  intros He Ht Hd. unfold render, stateIdsNonEmpty.
  destruct (getCurrentWeekEntries uuid (State.date st) (State.entries st)
              (State.calls st)) as [[week|] calls'] eqn:E;
    cbn [State.entries State.undoToasts State.weeklyEntries
         State.entryToDelete]; repeat split; try assumption.
  - exact (week_idsNonEmpty _ _ _ _ _ E).
  - constructor.
Qed.

Lemma perform_idsNonEmpty a st :
  enabled a st -> stateIdsNonEmpty st ->
  stateIdsNonEmpty (render uuid (perform uuid a st)).
Proof.
  intros Hen (He & Ht & Hw & Hd).
  destruct a as [newDate|p|entry| | |i|i]; cbn [perform enabled] in *.
  - destruct newDate; apply render_idsNonEmpty; assumption.
  - unfold submit.
    destruct (onSubmit uuid (State.date st) p (State.entries st)
                (State.calls st)) as [[entries'|] calls'] eqn:E;
      apply render_idsNonEmpty; cbn [State.entries State.undoToasts
                                     State.entryToDelete]; try assumption.
    exact (onSubmit_idsNonEmpty _ _ _ _ _ _ He E).
  - apply render_idsNonEmpty; cbn [handleDeleteEntry State.entries
      State.undoToasts State.entryToDelete]; try assumption.
    unfold idsNonEmpty in Hw. rewrite Forall_forall in Hw.
    apply Hw. exact (proj1 Hen).
  - apply render_idsNonEmpty; assumption.
  - unfold confirm. destruct (State.entryToDelete st) as [deleted|] eqn:Ed;
      apply render_idsNonEmpty;
      cbn [State.entries State.undoToasts State.entryToDelete confirmDelete];
      try rewrite Ed; try assumption; try exact I.
    + unfold idsNonEmpty in *. rewrite Forall_forall in *.
      intros e Hin. apply filter_In in Hin as [Hin _]. apply He. assumption.
    + apply Forall_app. split; [assumption|].
      constructor; [assumption|constructor].
  - unfold clickUndo.
    destruct (nth_error (State.undoToasts st) i) as [deleted|] eqn:E;
      apply render_idsNonEmpty;
      cbn [State.entries State.undoToasts State.entryToDelete];
      try assumption.
    + unfold undo. apply Forall_app. split; [assumption|].
      constructor; [|constructor].
      unfold idsNonEmpty in Ht. rewrite Forall_forall in Ht.
      apply Ht. exact (nth_error_In _ _ E).
    + unfold idsNonEmpty in *. rewrite Forall_forall in *.
      intros e Hin. apply Ht. exact (dropToast_In _ _ _ Hin).
  - apply render_idsNonEmpty;
      cbn [dismissToast State.entries State.undoToasts State.entryToDelete];
      try assumption.
    unfold idsNonEmpty in *. rewrite Forall_forall in *.
    intros e Hin. apply Ht. exact (dropToast_In _ _ _ Hin).
Qed.

Lemma mount_idsNonEmpty today savedEntries :
  stateIdsNonEmpty (mount uuid JSON_parse today savedEntries).
Proof.
  unfold mount.
  destruct (load_cases uuid JSON_parse savedEntries [] O)
    as [[calls' E]|(s & elements & loaded & calls' & -> & Hs & Ep & Em & E)];
    rewrite E; apply render_idsNonEmpty;
    cbn [State.entries State.undoToasts State.entryToDelete];
    try constructor.
  destruct (withId_all uuid uuid_nonempty _ _ _ _ Em) as [_ Hall].
  apply Forall_forall. intros e He.
  destruct (Forall2_right _ _ _ Hall e He) as (element & _ & _ & Hid).
  exact Hid.
Qed.

End Identifiers.

(** X8. When generated UUIDs are not empty, no entry ever has an empty
    identifier: not in the collection, not in a rendered week, not in an
    entry awaiting deletion or held by an [Undo], in any state the
    component reaches from any saved data. *)
Theorem identifiers_never_empty :
  forall uuid JSON_parse,
    (forall k, uuid k <> EmptyString) ->
    forall st, reachable uuid JSON_parse st -> stateIdsNonEmpty st.
Proof.
  intros uuid JSON_parse Huuid st H.
  induction H as [today savedEntries _|a st Hst IH Hen _].
  - apply mount_idsNonEmpty. assumption.
  - apply perform_idsNonEmpty; assumption.
Qed.

Lemma identifiers_never_empty_witness :
  (forall k, Sample.uuid k <> EmptyString) /\
  reachable Sample.uuid Sample.JSON_parse
    (run Sample.uuid Sample.undoRace Sample.mounted) /\
  stateIdsNonEmpty (run Sample.uuid Sample.undoRace Sample.mounted).
Proof.
  assert (H : forall k, Sample.uuid k <> EmptyString).
  { intros k. unfold Sample.uuid. cbn [String.append]. discriminate. }
  split; [exact H|]. split; [exact undoRace_reachable|].
  exact (identifiers_never_empty Sample.uuid Sample.JSON_parse H _
           undoRace_reachable).
Defined.


(* ================================================================== *)
(** ** What the cards, the chart and the summary show *)

Local Open Scope Q_scope.

Lemma max_from_in (values : list Q) : forall h m,
  fold_left JS.maxStep values (JS.Num h) = JS.Num m -> m = h \/ In m values.
Proof.
  induction values as [|v values IH]; intros h m; cbn [fold_left JS.maxStep].
  - intros [= ->]. left. reflexivity.
  - destruct (JS.Qgtb v h); intros H; apply IH in H as [->|H]; auto;
      right; [left; reflexivity|right; assumption|right; assumption].
Qed.

(** [Math.max] returns one of its arguments. *)
Lemma Math_max_in (values : list Q) (m : Q) :
  JS.Math_max values = JS.Num m -> In m values.
Proof.
  unfold JS.Math_max. destruct values as [|v0 values];
    cbn [fold_left JS.maxStep]; [discriminate|].
  intros H. apply max_from_in in H as [->|H]; [left|right]; auto.
Qed.

Lemma Math_max_nonempty (v : Q) (values : list Q) :
  exists m, JS.Math_max (v :: values) = JS.Num m.
Proof.
  unfold JS.Math_max. cbn [fold_left JS.maxStep].
  destruct (max_from values v) as (m & E & _). exists m. exact E.
Qed.

Lemma shown_iff (week : list SolarEntry) :
  DayCards.shown week = true <->
  exists e, In e week /\ 0 < e.(production).
Proof.
  unfold DayCards.shown. rewrite existsb_exists.
  split; intros (e & Hin & H); exists e; split; try assumption;
    apply Qgtb_true_iff; assumption.
Qed.

(** The maximum of a week is positive exactly when a day is productive. *)
Lemma gt0_max_shown (week : list SolarEntry) :
  JS.gt0 (JS.Math_max (map production week)) = DayCards.shown week.
Proof.
  apply eq_true_iff_eq. rewrite shown_iff. split.
  - destruct (JS.Math_max (map production week)) as [|m] eqn:E;
      cbn [JS.gt0]; [discriminate|].
    intros Hm. apply Qgtb_true_iff in Hm.
    apply Math_max_in in E. apply in_map_iff in E as (e & <- & He).
    exists e. split; assumption.
  - intros (e & He & Hp).
    destruct week as [|e0 week]; [contradiction|].
    destruct (Math_max_nonempty (production e0) (map production week))
      as [m Em].
    change (production e0 :: map production week)
      with (map production (e0 :: week)) in Em.
    rewrite Em. cbn [JS.gt0]. apply Qgtb_true_iff.
    apply Qlt_le_trans with (production e); [assumption|].
    apply (Math_max_upper _ _ Em). apply in_map. assumption.
Qed.

(** X9. The BEST DAY card names a day exactly when the grid of day cards
    is rendered, that is when some day of the week is productive, and it
    reads "No data" exactly when the grid gives way to its placeholder;
    the day it names is a day of the week that has a delete button. *)
Theorem best_day_shown_with_the_cards :
  forall week,
    (DayCards.shown week = true <->
     exists b, bestDay (calculateWeeklyStats week) = Some b) /\
    (DayCards.shown week = false <->
     bestDay (calculateWeeklyStats week) = None) /\
    (forall b, bestDay (calculateWeeklyStats week) = Some b ->
               In b week /\ DayCards.deletable b = true).
Proof.
  intros week.
  assert (Hbest : forall b, bestDay (calculateWeeklyStats week) = Some b ->
                            In b week /\ DayCards.deletable b = true).
  { intros b. unfold bestDay.
    cbn [calculateWeeklyStats maxProduction maxProductionDay].
    destruct (JS.Math_max _) as [|m] eqn:E; cbn [JS.gt0]; [discriminate|].
    destruct (JS.Qgtb m 0) eqn:Hm; [|discriminate].
    intros Hf. apply find_some in Hf as [Hin Heq]. split; [assumption|].
    cbn [JS.strictEq] in Heq. apply Qeq_bool_iff in Heq.
    unfold DayCards.deletable. apply Qgtb_true_iff. rewrite Heq.
    apply Qgtb_true_iff. assumption. }
  assert (Hshown : DayCards.shown week = true ->
                   exists b, bestDay (calculateWeeklyStats week) = Some b).
  { intros Hs. unfold bestDay.
    cbn [calculateWeeklyStats maxProduction maxProductionDay].
    pose proof (gt0_max_shown week) as Hg. rewrite Hs in Hg.
    change (fun entry : SolarEntry => production entry) with production.
    destruct (JS.Math_max (map production week)) as [|m] eqn:E;
      [discriminate|].
    rewrite Hg.
    apply Math_max_in in E. apply in_map_iff in E as (e & He & Hin).
    destruct (find (fun entry => JS.strictEq (production entry) (JS.Num m))
                   week) as [b|] eqn:Ef; [exists b; reflexivity|].
    exfalso. pose proof (find_none _ _ Ef e Hin) as Hn.
    cbn [JS.strictEq] in Hn. rewrite He, Qeq_bool_refl in Hn. discriminate. }
  split; [|split; [|exact Hbest]].
  - split; [exact Hshown|]. intros [b Hb].
    destruct (Hbest b Hb) as [Hin Hdel]. apply shown_iff. exists b.
    split; [assumption|]. apply Qgtb_true_iff. exact Hdel.
  - split.
    + intros Hs. destruct (bestDay (calculateWeeklyStats week)) as [b|] eqn:Eb;
        [|reflexivity].
      destruct (Hbest b eq_refl) as [Hin Hdel].
      assert (DayCards.shown week = true) as Ht.
      { apply shown_iff. exists b. split; [assumption|].
        apply Qgtb_true_iff. exact Hdel. }
      congruence.
    + intros Hb. destruct (DayCards.shown week) eqn:Hs; [|reflexivity].
      destruct (Hshown eq_refl) as [b Hb']. congruence.
Qed.









(* ================================================================== *)
(** ** Saving and loading again *)

Local Close Scope Q_scope.

(** An entry with a non-empty identifier keeps it when loaded, and no UUID
    is generated. *)
Lemma written_loads_back (uuid : nat -> string) (entries : list SolarEntry) :
  idsNonEmpty entries ->
  forall calls,
    Eff.Array_map (withId uuid) (map written entries) calls
    = (Eff.Returned entries, calls).
Proof.
  induction 1 as [|e entries He _ IH]; intros calls;
    cbn [map Eff.Array_map]; [reflexivity|].
  unfold Eff.bind at 1. cbn [written withId stored_id].
  assert (Ht : JS.truthy (id e) = true).
  { unfold JS.truthy. apply negb_true_iff. apply String.eqb_neq. exact He. }
  rewrite Ht. cbn [stored_date stored_production Eff.ret].
  unfold Eff.bind at 1. rewrite IH. cbn [Eff.ret].
  destruct e; reflexivity.
Qed.

(** X13. What the save effect wrote loads back unchanged: when the saved
    text parses to the array of the entries as they were written, with
    their three fields, and every identifier is non-empty, the loader
    returns exactly these entries, in their order, and generates no
    UUID. *)
Theorem saved_entries_load_back :
  forall (uuid : nat -> string) (JSON_parse : string -> Eff.outcome JSONValue)
         (entries current : list SolarEntry) (text : string) (calls : nat),
    idsNonEmpty entries ->
    text <> EmptyString ->
    JSON_parse text = Eff.Returned (JSONArray (map written entries)) ->
    load uuid JSON_parse (Some text) current calls
    = (Eff.Returned entries, calls).
Proof.
  intros uuid JSON_parse entries current text calls Hids Htext Hparse.
  unfold load, Eff.tryCatch.
  assert (Ht : JS.truthy text = true).
  { unfold JS.truthy. apply negb_true_iff. apply String.eqb_neq. exact Htext. }
  rewrite Ht. unfold Eff.bind at 1. rewrite Hparse.
  unfold Eff.bind at 1. rewrite (written_loads_back uuid entries Hids).
  reflexivity.
Qed.

Lemma saved_entries_load_back_witness :
  idsNonEmpty Sample.monWed /\
  load Sample.uuid SavedSample.JSON_parse (Some SavedSample.text) [] O
  = (Eff.Returned Sample.monWed, O).
Proof.
  assert (H : idsNonEmpty Sample.monWed)
    by (repeat constructor; discriminate).
  split; [exact H|].
  apply (saved_entries_load_back Sample.uuid SavedSample.JSON_parse
           Sample.monWed [] SavedSample.text O H);
    [discriminate|reflexivity].
Defined.

(* ================================================================== *)
(** ** The theme toggle *)

(** X14. A click on the theme toggle always changes the theme, to dark or
    to light; from then on clicks alternate between the two; and the
    button's label announces the mode the click sets. *)
Theorem theme_toggle_alternates :
  forall theme : option string,
    let newTheme := ThemeToggle.handleThemeChange theme in
    Some newTheme <> theme /\
    (newTheme = "dark"%string \/ newTheme = "light"%string) /\
    ThemeToggle.handleThemeChange
      (Some (ThemeToggle.handleThemeChange (Some newTheme))) = newTheme /\
    ThemeToggle.ariaLabel theme
    = ("Switch to " ++ newTheme ++ " mode")%string.
Proof.
  intros [t|]; cbn [ThemeToggle.handleThemeChange ThemeToggle.ariaLabel].
  - destruct (String.eqb t "dark") eqn:E.
    + apply String.eqb_eq in E. subst t.
      split; [discriminate|]. split; [right; reflexivity|].
      split; reflexivity.
    + apply String.eqb_neq in E.
      split; [intros [= H]; apply E; symmetry; exact H|].
      split; [left; reflexivity|]. split; reflexivity.
  - split; [discriminate|]. split; [left; reflexivity|]. split; reflexivity.
Qed.


(* ================================================================== *)
(** ** The selected date *)

Section Selected.
Variable uuid : nat -> string.
Variable JSON_parse : string -> Eff.outcome JSONValue.

(** No action unselects the date. *)
Lemma perform_keeps_date a st day :
  State.date st = Some day ->
  exists day', State.date (render uuid (perform uuid a st)) = Some day'.
Proof.
  intros Hd.
  assert (H : exists day', State.date (perform uuid a st) = Some day').
  { destruct a as [newDate|p|entry| | |i|i]; cbn [perform].
    - destruct newDate as [d|]; cbn [handleDateChange State.date];
        eexists; [reflexivity|exact Hd].
    - unfold submit.
      destruct (onSubmit uuid (State.date st) p (State.entries st)
                  (State.calls st)) as [[entries'|] calls'];
        cbn [State.date]; eexists; exact Hd.
    - exists day. exact Hd.
    - exists day. exact Hd.
    - exists day. unfold confirm.
      destruct (State.entryToDelete st); exact Hd.
    - exists day. unfold clickUndo.
      destruct (nth_error (State.undoToasts st) i); exact Hd.
    - exists day. exact Hd. }
  destruct H as [day' H]. exists day'. unfold render.
  destruct (getCurrentWeekEntries uuid _ _ _) as [[week|] calls'];
    exact H.
Qed.

Lemma mount_selects today savedEntries :
  State.date (mount uuid JSON_parse today savedEntries) = Some today.
Proof.
  unfold mount.
  destruct (load uuid JSON_parse savedEntries [] O) as [[entries'|] calls'];
    unfold render; cbn [State.date State.entries State.calls];
    destruct (getCurrentWeekEntries uuid _ _ _) as [[week|] c];
    reflexivity.
Qed.

(** A submit with a date selected stores the value for that date. *)
Lemma submit_stores st day p :
  State.date st = Some day ->
  productionOn (State.entries (submit uuid p st)) (DateFns.format day) = p.
Proof.
  intros Hd. unfold submit. rewrite Hd.
  pose proof (productionOn_saved uuid day p (State.entries st)
                (State.calls st)) as H.
  destruct (entries_split (DateFns.format day) (State.entries st))
    as [Hno|(l1 & e & l2 & E & He & Hl1)].
  - rewrite onSubmit_new in * by assumption. exact H.
  - rewrite E in *. rewrite onSubmit_existing in * by assumption. exact H.
Qed.

End Selected.

(** X15. In every state the component can be in, a date is selected:
    the state starts with today's date and [handleDateChange] refuses an
    undefined one.  So [onSubmit] never takes its "No date selected"
    return: a value submitted in such a state is stored for the selected
    date, as the production of the first entry with that date. *)
Theorem date_is_always_selected :
  forall (uuid : nat -> string) (JSON_parse : string -> Eff.outcome JSONValue)
         (st : State.t),
    reachable uuid JSON_parse st ->
    exists day,
      State.date st = Some day /\
      forall p,
        productionOn (State.entries (perform uuid (Submit p) st))
                     (DateFns.format day) = p.
Proof.
  intros uuid JSON_parse st Hst.
  assert (Hd : exists day, State.date st = Some day).
  { induction Hst as [today savedEntries _|a st Hst IH Hen _].
    - exists today. apply mount_selects.
    - destruct IH as [day Hd]. exact (perform_keeps_date uuid a st day Hd). }
  destruct Hd as [day Hd]. exists day. split; [exact Hd|].
  intros p. cbn [perform]. apply submit_stores. exact Hd.
Qed.

Lemma date_is_always_selected_witness :
  reachable Sample.uuid Sample.JSON_parse
    (run Sample.uuid Sample.undoRace Sample.mounted) /\
  exists day,
    State.date (run Sample.uuid Sample.undoRace Sample.mounted) = Some day /\
    forall p,
      productionOn
        (State.entries
           (perform Sample.uuid (Submit p)
              (run Sample.uuid Sample.undoRace Sample.mounted)))
        (DateFns.format day) = p.
Proof.
  assert (H : reachable Sample.uuid Sample.JSON_parse
                (run Sample.uuid Sample.undoRace Sample.mounted))
    by exact undoRace_reachable.
  split; [exact H|].
  exact (date_is_always_selected Sample.uuid Sample.JSON_parse _ H).
Defined.

(* ================================================================== *)
(** ** The week window, in every zone *)

Lemma bind_unfold {A B : Type} (c : Eff.t A) (k : A -> Eff.t B) calls :
  Eff.bind c k calls
  = match c calls with
    | (Eff.Returned a, calls') => k a calls'
    | (Eff.Thrown, calls') => (Eff.Thrown, calls')
    end.
Proof. reflexivity. Qed.

(** A callback that does not touch the UUID source gives all its results
    or throws, and leaves the count of calls as it was. *)
Lemma Array_map_all_or_nothing {A B : Type} (f : A -> Eff.outcome B)
    (l : list A) (calls : nat) :
  (exists results,
     Eff.Array_map (fun x c => (f x, c)) l calls
     = (Eff.Returned results, calls) /\
     List.length results = List.length l) \/
  Eff.Array_map (fun x c => (f x, c)) l calls = (Eff.Thrown, calls).
Proof.
  induction l as [|x l IH]; cbn [Eff.Array_map].
  - left. exists []. split; reflexivity.
  - rewrite bind_unfold. cbv beta.
    destruct (f x) as [y|]; [|right; reflexivity].
    rewrite bind_unfold.
    destruct IH as [(results & E & Hlen)|E]; rewrite E;
      [|right; reflexivity].
    left. exists (y :: results). split; [reflexivity|].
    cbn [List.length]. rewrite Hlen. reflexivity.
Qed.

(** X16. In every time zone and for every selected date, the week
    window returns, and it is either empty, with no UUID drawn, or has
    exactly seven entries, with at most seven UUIDs drawn.  It is empty
    when no date is selected and when the selected date is an Invalid
    Date.  In a regular week it is the window of the local calendar day of
    the selected date, identifiers and UUID calls included, so that what
    is shown of windows on calendar days holds of it. *)
Theorem weekWindow_empty_or_seven_days :
  (forall zone uuid selectedDate entries calls,
     exists week calls',
       InZone.getCurrentWeekEntries zone uuid selectedDate entries calls
       = (Eff.Returned week, calls') /\
       ((week = [] /\ calls' = calls) \/
        (List.length week = 7%nat /\ (calls <= calls' <= calls + 7)%nat))) /\
  (forall zone uuid entries calls,
     InZone.getCurrentWeekEntries zone uuid None entries calls
     = (Eff.Returned [], calls) /\
     InZone.getCurrentWeekEntries zone uuid (Some JSDate.InvalidDate)
                                  entries calls
     = (Eff.Returned [], calls)) /\
  (forall zone z t uuid entries calls,
     JSDate.regularWeek zone z t ->
     InZone.getCurrentWeekEntries zone uuid (Some (JSDate.TimeValue t))
                                  entries calls
     = getCurrentWeekEntries uuid (Some (JSDate.localDay z t)) entries calls).
Proof.
  split; [|split].
  - intros zone uuid [date|] entries calls;
      [|exists [], calls; split; [reflexivity|left; split; reflexivity]].
    unfold InZone.getCurrentWeekEntries, Eff.tryCatch. cbv zeta.
    rewrite bind_unfold.
    destruct (Array_map_all_or_nothing
                (fun i => JSDate.format zone
                            (JSDate.addDays zone
                               (JSDate.startOfWeek zone date) i))
                (Array_from 7 (fun i => i)) calls)
      as [(weekDates & E & Hlen)|E]; rewrite E.
    + destruct (weekEntries_dayOf uuid entries weekDates calls)
        as (week & calls' & -> & Hc & Hweek).
      exists week, calls'. split; [reflexivity|]. right.
      rewrite Hlen in Hc. cbn [Array_from seq map List.length] in Hc, Hlen.
      split; [|exact Hc].
      rewrite <- (Forall2_length Hweek). exact Hlen.
    + exists [], calls. split; [reflexivity|]. left. split; reflexivity.
  - intros zone uuid entries calls. split; reflexivity.
  - intros zone z t uuid entries calls Hreg.
    apply week_regular. exact Hreg.
Qed.

Lemma weekWindow_empty_or_seven_days_witness :
  JSDate.regularWeek Zones.utc 0 (Sample.monday * JSDate.msPerDay) /\
  InZone.getCurrentWeekEntries Zones.utc Sample.uuid
    (Some (JSDate.TimeValue (Sample.monday * JSDate.msPerDay)))
    Sample.monWed 0%nat
  = getCurrentWeekEntries Sample.uuid
      (Some (JSDate.localDay 0 (Sample.monday * JSDate.msPerDay)))
      Sample.monWed 0%nat.
Proof.
  assert (Hreg : JSDate.regularWeek Zones.utc 0
                   (Sample.monday * JSDate.msPerDay)).
  { apply utc_regular; vm_compute; discriminate. }
  split; [exact Hreg|].
  exact (proj2 (proj2 weekWindow_empty_or_seven_days) Zones.utc 0 _
           Sample.uuid Sample.monWed 0%nat Hreg).
Defined.

(* ================================================================== *)
(** ** The total bounds the best day and the average *)

Section Totals.
Import Float64.
Local Open Scope Q_scope.

Lemma le_of_eq (a b : Q) (x : t) :
  a == b -> le (Finite a) x -> le (Finite b) x.
Proof.
  intros E. destruct x; cbn [le]; try tauto. intros H. lra.
Qed.

Lemma sum_from_infinity (week : list SolarEntry) :
  fold_left (fun sum entry => add sum (Finite entry.(production)))
            week Infinity = Infinity.
Proof.
  induction week as [|x week IH]; cbn [fold_left add]; auto.
Qed.

(** A sum of doubles that are not negative is a double or [Infinity], at
    least what it started from and at least each of its terms. *)
Lemma sum_dominates (week : list SolarEntry) :
  nonNegative week -> doubles week ->
  forall a,
    0 <= a -> round a = Finite a ->
    let total :=
      fold_left (fun sum entry => add sum (Finite entry.(production)))
                week (Finite a) in
    le (Finite a) total /\
    (forall e, In e week -> le (Finite e.(production)) total) /\
    (forall s, total = Finite s -> round s = Finite s).
Proof.
  intros Hnn. induction Hnn as [|e week He Hnn IH]; intros Hd a Ha Ra;
    cbv zeta; cbn [fold_left].
  - split; [cbn; lra|]. split; [intros e []|].
    intros s [= <-]. exact Ra.
  - inversion Hd as [|? ? (r & Er & Hr) Hd']; subst.
    cbn [add].
    assert (H1 : le (Finite a) (round (a + production e))).
    { rewrite <- Ra at 1. apply round_mono. lra. }
    assert (H2 : le (Finite (production e)) (round (a + production e))).
    { apply (le_of_eq r); [exact Hr|]. rewrite <- Er.
      apply round_mono. lra. }
    destruct (round (a + production e)) as [| |s|] eqn:Es;
      cbn [le] in H1, H2; try contradiction.
    + destruct (IH Hd' s ltac:(lra) (round_idem _ _ Es))
        as (Hs & Hall & Hdouble).
      cbv zeta in Hs, Hall, Hdouble. split; [|split].
      * apply f64_le_trans with (Finite s); [cbn; lra|exact Hs].
      * intros e' [<-|He'].
        -- apply f64_le_trans with (Finite s); [cbn; lra|exact Hs].
        -- apply Hall. exact He'.
      * exact Hdouble.
    + rewrite sum_from_infinity. split; [exact I|].
      split; [intros e' _; exact I|]. intros s. discriminate.
Qed.

End Totals.

(** X11. In a week of doubles none of which is negative, no day exceeds
    the TOTAL, and the AVERAGE is between 0 and the TOTAL; with a
    productive day the maximum, which BEST DAY shows, is above 0 and at
    most the TOTAL.  The average can exceed the maximum by a rounding
    error, so the two are not compared. *)
Theorem best_and_average_at_most_total :
  forall week,
    nonNegative week -> doubles week ->
    (forall e, In e week ->
       Float64.le (Float64.Finite e.(production))
                  (weeklyTotal (calculateWeeklyStats week))) /\
    Float64.le (Float64.Finite 0) (dailyAverage (calculateWeeklyStats week)) /\
    Float64.le (dailyAverage (calculateWeeklyStats week))
               (weeklyTotal (calculateWeeklyStats week)) /\
    (DayCards.shown week = true ->
     exists m,
       maxProduction (calculateWeeklyStats week) = JS.Num m /\ (0 < m)%Q /\
       Float64.le (Float64.Finite m)
                  (weeklyTotal (calculateWeeklyStats week))).
Proof.
  intros week Hnn Hd.
  destruct (sum_dominates week Hnn Hd 0 ltac:(lra) eq_refl)
    as (H0 & Hall & Hdouble).
  cbv zeta in H0, Hall, Hdouble.
  change (fold_left _ week (Float64.Finite 0))
    with (weeklyTotal (calculateWeeklyStats week)) in H0, Hall, Hdouble.
  split; [exact Hall|].
  assert (Havg :
    Float64.le (Float64.Finite 0) (dailyAverage (calculateWeeklyStats week)) /\
    Float64.le (dailyAverage (calculateWeeklyStats week))
               (weeklyTotal (calculateWeeklyStats week))).
  { rewrite dailyAverage_div.
    destruct (Spec.productiveDays week) as [|n]; [split; [cbn; lra|exact H0]|].
    destruct (weeklyTotal (calculateWeeklyStats week)) as [| |s|] eqn:Es;
      cbn [Float64.le] in H0; try contradiction.
    - rewrite div_count.
      assert (Hn : (0 < inject_Z (Z.of_nat (S n)))%Q).
      { change 0%Q with (inject_Z 0). rewrite <- Zlt_Qlt. lia. }
      assert (Hn1 : (1 <= inject_Z (Z.of_nat (S n)))%Q).
      { change 1%Q with (inject_Z 1). rewrite <- Zle_Qle. lia. }
      split.
      + change (Float64.Finite 0) with (Float64.round 0).
        apply round_mono. apply Qle_shift_div_l; [exact Hn|]. lra.
      + rewrite <- (Hdouble s eq_refl).
        apply round_mono. apply Qle_shift_div_r; [exact Hn|]. nra.
    - cbn. split; exact I. }
  split; [exact (proj1 Havg)|]. split; [exact (proj2 Havg)|].
  intros Hs.
  pose proof (gt0_max_shown week) as Hg. rewrite Hs in Hg.
  cbn [calculateWeeklyStats maxProduction].
  change (fun entry : SolarEntry => production entry) with production.
  destruct (JS.Math_max (map production week)) as [|m] eqn:E;
    [discriminate|].
  cbn [JS.gt0] in Hg. apply Qgtb_true_iff in Hg.
  exists m. split; [reflexivity|]. split; [exact Hg|].
  apply Math_max_in in E. apply in_map_iff in E as (b & <- & Hb).
  apply Hall. exact Hb.
Qed.

Lemma best_and_average_at_most_total_witness :
  nonNegative Sample.week0503 /\ doubles Sample.week0503 /\
  Float64.le (Float64.Finite 5)
             (weeklyTotal (calculateWeeklyStats Sample.week0503)) /\
  Float64.le (dailyAverage (calculateWeeklyStats Sample.week0503))
             (weeklyTotal (calculateWeeklyStats Sample.week0503)).
Proof.
  assert (Hnn : nonNegative Sample.week0503)
    by (repeat constructor; discriminate).
  assert (Hd : doubles Sample.week0503).
  { repeat constructor; eexists;
      (split; [vm_compute; reflexivity|reflexivity]). }
  split; [exact Hnn|]. split; [exact Hd|].
  destruct (best_and_average_at_most_total Sample.week0503 Hnn Hd)
    as (Hall & _ & Havg & _).
  split; [|exact Havg].
  apply (Hall (mkEntry "2024-01-08" 5 "m")). right. left. reflexivity.
Defined.

